(** * A shallow embedding of [run_code] (src/main.py) and its properties

    [run_code] materialises a code snippet in a temporary directory, runs
    it with an interpreter found on the search path, and reports what
    happened as a Python [dict].  Everything it does goes through the
    operating system, so the embedding is parameterised by a [Host]: a
    description of how each system call of one invocation turns out.  The
    function itself is translated statement by statement into a small
    monad with state (the directories that exist), a log of the effects
    performed and Python exceptions. *)

From Stdlib Require Import ZArith String Ascii List Lia Bool DecimalString.
From stdpp Require Import base gmap strings list fin_maps.

Local Open Scope Z_scope.
Local Open Scope string_scope.

(** ** Python values and strings *)

Module Py.

(** A Python [str] is a sequence of code points; the embedding keeps the
    code points below 256, one [ascii] each. *)

(** [str.lower] on one code point: [A-Z] and the Latin-1 capitals
    (U+00C0 to U+00DE, without the multiplication sign U+00D7) move up by
    32, everything else is kept. *)
Definition lower_char (c : ascii) : ascii :=
  let n := N_of_ascii c in
  if (((65 <=? n) && (n <=? 90)) ||
      ((192 <=? n) && (n <=? 222) && negb (n =? 215)))%N
  then ascii_of_N (n + 32)
  else c.

Fixpoint lower (s : string) : string :=
  match s with
  | EmptyString => EmptyString
  | String c s' => String (lower_char c) (lower s')
  end.

(** The slice [s[:n]]. *)
Definition slice_to (n : Z) (s : string) : string :=
  if (0 <=? n)%Z then substring 0 (Z.to_nat n) s
  else substring 0 (Z.to_nat (Z.of_nat (String.length s) + n)) s.

Definition len (s : string) : Z := Z.of_nat (String.length s).

(** A Python [bytes] object. *)
Definition bytes := list Byte.byte.

#[global] Instance byte_eq_dec : EqDecision Byte.byte := Byte.byte_eq_dec.

(** The values that occur in the dictionaries [run_code] returns. *)
Inductive value :=
| VNone
| VBool (b : bool)
| VInt (z : Z)
| VStr (s : string)
| VBytes (b : bytes).

#[global] Instance value_eq_dec : EqDecision value.
Proof. solve_decision. Defined.

(** Truth value of a string, and of an optional string ([None] and the
    empty string are false). *)
Definition truthy (s : string) : bool :=
  match s with EmptyString => false | _ => true end.

Definition truthy_opt (o : option string) : bool :=
  match o with Some s => truthy s | None => false end.

(** [a or b] where [a] is a [str]. *)
Definition or_str (a b : string) : string := if truthy a then a else b.

(** [a or b] where both are [Optional[str]]. *)
Definition or_opt (a b : option string) : option string :=
  if truthy_opt a then a else b.

(** Truth value of a value: [None], [False], zero and the empty [str] and
    [bytes] are false. *)
Definition truthy_value (v : value) : bool :=
  match v with
  | VNone => false
  | VBool b => b
  | VInt z => negb (z =? 0)%Z
  | VStr s => truthy s
  | VBytes b => match b with [] => false | _ => true end
  end.

(** [a or b] on values. *)
Definition or_value (a b : value) : value := if truthy_value a then a else b.

(** [s.replace("\r\n", "\n")] and [s.replace("\r", "\n")]. *)
Fixpoint replace_crlf (s : string) : string :=
  match s with
  | EmptyString => EmptyString
  | String c rest =>
      match c, rest with
      | "013"%char, String "010"%char rest' => String "010"%char (replace_crlf rest')
      | _, _ => String c (replace_crlf rest)
      end
  end.

Fixpoint replace_cr (s : string) : string :=
  match s with
  | EmptyString => EmptyString
  | String c rest =>
      String (if Ascii.eqb c "013"%char then "010"%char else c) (replace_cr rest)
  end.

(** Exceptions: [subprocess.TimeoutExpired] with its [output] and [stderr]
    attributes, and any other subclass of [Exception], of which only the
    text [str(e)] is used. *)
Inductive exn :=
| TimeoutExpired (output stderr : value)
| Exception (msg : string).

End Py.
Export Py.

(** ** Resource limits ([resource.setrlimit]) *)

Module Rlimit.

Inductive resource := RLIMIT_CPU | RLIMIT_AS | RLIMIT_FSIZE | RLIMIT_NOFILE.

#[global] Instance resource_eq_dec : EqDecision resource.
Proof. solve_decision. Defined.

(** A limit is a number or [RLIM_INFINITY]. *)
Inductive rlim := Lim (n : Z) | RLIM_INFINITY.

#[global] Instance rlim_eq_dec : EqDecision rlim.
Proof. solve_decision. Defined.

Definition rlim_leb (a b : rlim) : bool :=
  match a, b with
  | _, RLIM_INFINITY => true
  | RLIM_INFINITY, Lim _ => false
  | Lim x, Lim y => (x <=? y)%Z
  end.

(** The limits of a process: a (soft, hard) pair per resource. *)
Definition rlimits := resource -> rlim * rlim.

Definition set_limit (r : resource) (v : rlim * rlim) (cur : rlimits) : rlimits :=
  fun r' => if decide (r = r') then v else cur r'.

(** [resource.setrlimit(r, (soft, hard))] raises [ValueError] when the soft
    limit is above the hard one, and when a process without the privilege
    raises its hard limit. *)
Definition setrlimit (privileged : bool) (r : resource) (v : rlim * rlim)
    (cur : rlimits) : exn + rlimits :=
  if negb (rlim_leb (fst v) (snd v))
  then inl (Exception "current limit exceeds maximum limit")
  else if negb privileged && negb (rlim_leb (snd v) (snd (cur r)))
  then inl (Exception "not allowed to raise maximum limit")
  else inr (set_limit r v cur).

End Rlimit.
Export Rlimit.

(** ** The host: how the system calls of one invocation turn out *)

(** What [TimeoutExpired] carries for a stream: nothing ([None]), the
    bytes read before the deadline, undecoded (the POSIX implementation of
    [subprocess]), or the text read after the kill (the Windows one). *)
Inductive captured :=
| NoOutput
| CapturedBytes (b : bytes)
| CapturedText (s : string).

(** What the child process does once the interpreter runs the snippet. *)
Record child_behaviour := Child {
  exit_after : option Z;          (* milliseconds until it exits; [None]: never *)
  eof_after : option Z;           (* milliseconds until both pipes are at end of
                                     file, closed by every process that holds
                                     them; [None]: never *)
  returncode : Z;
  stdout_bytes : bytes;           (* what was read from the pipes by end of file *)
  stderr_bytes : bytes;
  captured_stdout : captured;     (* what [TimeoutExpired] carries for the stream *)
  captured_stderr : captured
}.

Record Host := {
  POSIX : bool;                         (* [import resource] succeeded *)
  privileged : bool;                    (* may raise hard limits *)
  inherited_limits : rlimits;           (* the limits of the server process *)
  gettempdir : string;
  fresh_name : option string;           (* suffix [mkdtemp] picks; [None]: it fails *)
  search_path : string -> option string; (* [shutil.which] *)
  write_error : string -> string -> option string; (* path, text *)
  chmod_error : string -> option string;
  exec_error : list string -> option string;
  child : list string -> string -> rlimits -> child_behaviour;
  decode : bytes -> string + string;    (* the locale's codec, strict: the text,
                                           or [str] of the [UnicodeDecodeError] *)
  rmtree_error : string -> option string
}.

(** The effects [run_code] has on the system, in the order they happen. *)
Inductive event :=
| EvMkdtemp (dir : string)
| EvWrite (path text : string)
| EvChmod (path : string) (mode : Z)
| EvFork (cmd : list string) (cwd : string) (timeout : Z)
| EvExec (cmd : list string) (cwd : string) (limits : rlimits)
| EvKill (cmd : list string)
| EvRmtree (dir : string).

(** ** A monad for state, effects log and exceptions *)

Module Eff.

Inductive res (A : Type) :=
| Ret (a : A)
| Raise (e : exn).
Arguments Ret {A} a.
Arguments Raise {A} e.

(** The outcome of a computation: its result, the directories that exist
    afterwards, and the effects it performed. *)
Record run (A : Type) := Run {
  outcome : res A;
  dirs : gset string;
  events : list event
}.
Arguments Run {A} _ _ _.
Arguments outcome {A} _.
Arguments dirs {A} _.
Arguments events {A} _.

Definition M (A : Type) := gset string -> run A.

Definition ret {A} (a : A) : M A := fun fs => Run (Ret a) fs [].

Definition raise {A} (e : exn) : M A := fun fs => Run (Raise e) fs [].

Definition bind {A B} (m : M A) (k : A -> M B) : M B := fun fs =>
  match m fs with
  | Run (Ret a) fs1 ev1 =>
      match k a fs1 with
      | Run o fs2 ev2 => Run o fs2 (ev1 ++ ev2)
      end
  | Run (Raise e) fs1 ev1 => Run (Raise e) fs1 ev1
  end.

Definition emit (ev : event) : M unit := fun fs => Run (Ret tt) fs [ev].

(** [try: m  except ... as e: handler e] *)
Definition try_except {A} (m : M A) (handler : exn -> M A) : M A := fun fs =>
  match m fs with
  | Run (Ret a) fs1 ev1 => Run (Ret a) fs1 ev1
  | Run (Raise e) fs1 ev1 =>
      match handler e fs1 with
      | Run o fs2 ev2 => Run o fs2 (ev1 ++ ev2)
      end
  end.

(** [try: m  finally: fin].  The [finally] block runs whether [m] returned
    or raised; an exception of its own replaces the outcome of [m]. *)
Definition try_finally {A} (m : M A) (fin : M unit) : M A := fun fs =>
  match m fs with
  | Run o fs1 ev1 =>
      match fin fs1 with
      | Run (Ret _) fs2 ev2 => Run o fs2 (ev1 ++ ev2)
      | Run (Raise e) fs2 ev2 => Run (Raise e) fs2 (ev1 ++ ev2)
      end
  end.

End Eff.
Export Eff.

(** The monad operations are registered with stdpp's classes, which gives
    the notations [x ← m; k] and [m ;; k]. *)
#[global] Instance M_ret : MRet M := @ret.
#[global] Instance M_bind : MBind M := fun A B k m => bind m k.

(** ** The library calls [run_code] makes *)

Section Calls.

Variable h : Host.

(** [os.path.join(a, b)] for a relative [b]. *)
Definition path_join (a b : string) : string := a +:+ "/" +:+ b.

(** [tempfile.mkdtemp(prefix=...)]: creates a directory that did not exist
    before and returns its path, or raises. *)
Definition mkdtemp (prefix : string) : M string := fun fs =>
  match fresh_name h with
  | None => Run (Raise (Exception "No usable temporary directory found")) fs []
  | Some suffix =>
      let d := path_join (gettempdir h) (prefix +:+ suffix) in
      if decide (d ∈ fs)
      then Run (Raise (Exception "No usable temporary directory name found")) fs []
      else Run (Ret d) ({[d]} ∪ fs) [EvMkdtemp d]
  end.

(** [with open(path, "w", encoding="utf-8") as f: f.write(text)] *)
Definition write_file (path text : string) : M unit :=
  match write_error h path text with
  | Some msg => raise (Exception msg)
  | None => emit (EvWrite path text)
  end.

(** [os.chmod(path, mode)] *)
Definition chmod (path : string) (mode : Z) : M unit :=
  match chmod_error h path with
  | Some msg => raise (Exception msg)
  | None => emit (EvChmod path mode)
  end.

(** [shutil.which(name)] *)
Definition which (name : string) : option string := search_path h name.

(** [shutil.rmtree(d)]: removes the tree, or raises and leaves [d] in
    place. *)
Definition rmtree (d : string) : M unit := fun fs =>
  match rmtree_error h d with
  | Some msg => Run (Raise (Exception msg)) fs []
  | None => Run (Ret tt) (fs ∖ {[d]}) [EvRmtree d]
  end.

(** The object [subprocess.run] returns. *)
Record CompletedProcess := {
  proc_returncode : Z;
  proc_stdout : string;
  proc_stderr : string
}.

(** Whether the child exits before [timeout] seconds have passed, and
    whether both pipes are at end of file by then. *)
Definition exits_within (c : child_behaviour) (timeout : Z) : bool :=
  match exit_after c with
  | Some ms => (ms <=? 1000 * timeout)%Z
  | None => false
  end.

Definition eof_within (c : child_behaviour) (timeout : Z) : bool :=
  match eof_after c with
  | Some ms => (ms <=? 1000 * timeout)%Z
  | None => false
  end.

(** [Popen._translate_newlines] after a successful decoding:
    [data.replace("\r\n", "\n").replace("\r", "\n")]. *)
Definition translate_newlines (data : string) : string :=
  replace_cr (replace_crlf data).

(** The [output] and [stderr] attributes of [TimeoutExpired]. *)
Definition payload (c : captured) : value :=
  match c with
  | NoOutput => VNone
  | CapturedBytes b => VBytes b
  | CapturedText s => VStr s
  end.

(** [subprocess.run(cmd, cwd=cwd, stdout=PIPE, stderr=PIPE, timeout=timeout,
    text=True, preexec_fn=preexec_fn)].  The child is forked, runs
    [preexec_fn] (when there is one) on its own limits, then executes [cmd].
    An exception in [preexec_fn] or a failing exec is raised in the parent.
    [communicate] reads both pipes to end of file and waits for the child.
    When all of that is done within [timeout] seconds, the bytes of each
    stream are decoded (strictly, [stdout] first) and their newlines
    translated; a [UnicodeDecodeError] is raised to the caller.  (The
    Windows implementation returns [None] for a stream it cannot decode,
    and the slice on line 162 or 163 raises [TypeError] instead: an
    exception in the same [try] block.)  Otherwise [TimeoutExpired] is
    raised with what the parent holds, after the child was killed; a child
    that has exited already, while another process keeps a pipe open, is
    not signalled. *)
Definition subprocess_run (cmd : list string) (cwd : string) (timeout : Z)
    (preexec_fn : option (rlimits -> exn + rlimits)) : M CompletedProcess :=
  emit (EvFork cmd cwd timeout) ;;
  match (match preexec_fn with
         | Some f => f (inherited_limits h)
         | None => inr (inherited_limits h)
         end) with
  | inl _ => raise (Exception "Exception occurred in preexec_fn.")
  | inr limits =>
      match exec_error h cmd with
      | Some msg => raise (Exception msg)
      | None =>
          emit (EvExec cmd cwd limits) ;;
          let c := child h cmd cwd limits in
          if exits_within c timeout then
            if eof_within c timeout then
              match decode h (stdout_bytes c) with
              | inl msg => raise (Exception msg)
              | inr out =>
                  match decode h (stderr_bytes c) with
                  | inl msg => raise (Exception msg)
                  | inr err =>
                      mret {| proc_returncode := returncode c;
                              proc_stdout := translate_newlines out;
                              proc_stderr := translate_newlines err |}
                  end
              end
            else
              raise (TimeoutExpired (payload (captured_stdout c))
                                    (payload (captured_stderr c)))
          else
            emit (EvKill cmd) ;;
            raise (TimeoutExpired (payload (captured_stdout c))
                                  (payload (captured_stderr c)))
      end
  end.

(** ** The source: [_set_limits] and [run_code] *)

(** [_set_limits], run in the child before exec; its state is the limits
    of the child. *)
Definition _set_limits (cur : rlimits) : exn + rlimits :=
  if negb (POSIX h) then inr cur
  else
    match setrlimit (privileged h) RLIMIT_CPU (Lim 6, Lim 8) cur with
    | inl e => inl e
    | inr l1 =>
        let mem_bytes := 256 * 1024 * 1024 in
        match setrlimit (privileged h) RLIMIT_AS (Lim mem_bytes, Lim mem_bytes) l1 with
        | inl e => inl e
        | inr l2 =>
            setrlimit (privileged h) RLIMIT_FSIZE
              (Lim (10 * 1024 * 1024), Lim (10 * 1024 * 1024)) l2
        end
    end.

(** A statement sequence of the [try] body either executes [return d] or
    falls through with a value. *)
Inductive flow (A : Type) :=
| Return (d : gmap string value)
| Next (a : A).
Arguments Return {A} d.
Arguments Next {A} a.

(** The [if]/[elif] chain of lines 118-147: writes the source file, looks
    the interpreter up and builds [cmd].  Where the source uses
    [python_exec] as an element of [cmd] it is known to be a non-empty
    string, which [default] extracts.  The mode [0o700] is 448. *)
Definition dispatch (language code tmpdir : string) : M (flow (list string)) :=
  if decide (language ∈ ["py"; "python"]) then
    let filename := "main.py" in
    write_file (path_join tmpdir filename) code ;;
    let python_exec := or_opt (which "python3") (which "python") in
    if negb (truthy_opt python_exec)
    then mret (Return {[ "success" := VBool false;
                         "error" := VStr "python interpreter not found on server." ]})
    else mret (Next [default "" python_exec; "-u"; filename])
  else if decide (language ∈ ["js"; "node"; "javascript"]) then
    let filename := "main.js" in
    write_file (path_join tmpdir filename) code ;;
    let node_exec := which "node" in
    if negb (truthy_opt node_exec)
    then mret (Return {[ "success" := VBool false;
                         "error" := VStr "node not found on server." ]})
    else mret (Next [default "" node_exec; filename])
  else if decide (language ∈ ["sh"; "bash"]) then
    let filename := "run.sh" in
    write_file (path_join tmpdir filename) code ;;
    chmod (path_join tmpdir filename) 448 ;;
    let bash_exec := or_opt (which "bash") (which "sh") in
    if negb (truthy_opt bash_exec)
    then mret (Return {[ "success" := VBool false;
                         "error" := VStr "sh/bash not found on server." ]})
    else mret (Next [default "" bash_exec; filename])
  else
    mret (Return {[ "success" := VBool false;
                    "error" := VStr ("Unsupported language: " +:+ language) ]}).

(** The body of the [try] statement, lines 118-166. *)
Definition try_body (language code : string) (timeout_seconds : Z)
    (tmpdir : string) : M (gmap string value) :=
  f ← dispatch language code tmpdir;
  match f with
  | Return d => mret d
  | Next cmd =>
      proc ← subprocess_run cmd tmpdir timeout_seconds
               (if POSIX h then Some _set_limits else None);
      mret {[ "success" := VBool (bool_decide (proc_returncode proc = 0));
              "stdout" := VStr (slice_to 20000 (proc_stdout proc));
              "stderr" := VStr (slice_to 20000 (proc_stderr proc));
              "exit_code" := VInt (proc_returncode proc);
              "timed_out" := VBool false ]}
  end.

(** The two [except] clauses, lines 168-171. *)
Definition handlers (e : exn) : M (gmap string value) :=
  match e with
  | TimeoutExpired output stderr =>
      mret {[ "success" := VBool false;
              "stdout" := or_value output (VStr "");
              "stderr" := or_value stderr (VStr "TIMEOUT");
              "exit_code" := VNone;
              "timed_out" := VBool true ]}
  | Exception msg =>
      mret {[ "success" := VBool false;
              "error" := VStr ("Execution error: " +:+ msg) ]}
  end.

(** The [finally] block, lines 172-177. *)
Definition cleanup (tmpdir : string) : M unit :=
  try_except (rmtree tmpdir) (fun _ => mret tt).

Definition run_code (language code : string) (timeout_seconds : Z)
    : M (gmap string value) :=
  let language := lower (or_str language "python") in
  tmpdir ← mkdtemp "ai_run_";
  try_finally
    (try_except (try_body language code timeout_seconds tmpdir) handlers)
    (cleanup tmpdir).

End Calls.

(** ** Vocabulary for the properties *)

(** The three kinds of dictionaries [run_code] builds (lines 160-166, 169,
    and the [error] results of lines 124-171). *)
Definition completion_result (rc : Z) (out err : string) : gmap string value :=
  {[ "success" := VBool (bool_decide (rc = 0));
     "stdout" := VStr (slice_to 20000 out);
     "stderr" := VStr (slice_to 20000 err);
     "exit_code" := VInt rc;
     "timed_out" := VBool false ]}.

Definition timeout_result (output stderr : value) : gmap string value :=
  {[ "success" := VBool false;
     "stdout" := or_value output (VStr "");
     "stderr" := or_value stderr (VStr "TIMEOUT");
     "exit_code" := VNone;
     "timed_out" := VBool true ]}.

Definition error_result (msg : string) : gmap string value :=
  {[ "success" := VBool false; "error" := VStr msg ]}.

(** The three terminal outcomes of the data model, as tests on a result:
    a completion carries an integer [exit_code], [timed_out] false and no
    [error]; a timeout has [timed_out] true and [exit_code] [None]; an
    error result has a non-empty [error] and no [exit_code] key. *)
Definition is_completion (d : gmap string value) : bool :=
  match d !! "exit_code", d !! "timed_out", d !! "error" with
  | Some (VInt _), Some (VBool false), None => true
  | _, _, _ => false
  end.

Definition is_timeout (d : gmap string value) : bool :=
  match d !! "timed_out", d !! "exit_code" with
  | Some (VBool true), Some VNone => true
  | _, _ => false
  end.

Definition is_error (d : gmap string value) : bool :=
  match d !! "error", d !! "exit_code" with
  | Some (VStr msg), None => truthy msg
  | _, _ => false
  end.

Definition exactly_one (a b c : bool) : Prop :=
  (a = true /\ b = false /\ c = false) \/
  (a = false /\ b = true /\ c = false) \/
  (a = false /\ b = false /\ c = true).

(** The length of a [str] or [bytes] field of a result, when it is
    there. *)
Definition field_len (d : gmap string value) (k : string) : option Z :=
  match d !! k with
  | Some (VStr s) => Some (len s)
  | Some (VBytes b) => Some (Z.of_nat (length b))
  | _ => None
  end.

(** The keys the docstring of [run_code] promises. *)
Definition documented_keys : list string :=
  ["success"; "stdout"; "stderr"; "exit_code"; "timed_out"].

Definition has_documented_keys (d : gmap string value) : bool :=
  forallb (fun k => bool_decide (is_Some (d !! k))) documented_keys.

(** Effects of a given kind in a log. *)
Definition spawns (evs : list event) : list event :=
  List.filter (fun ev => match ev with EvFork _ _ _ | EvExec _ _ _ => true | _ => false end) evs.

Definition created (evs : list event) : list string :=
  omap (fun ev => match ev with EvMkdtemp d => Some d | _ => None end) evs.

(** The language families and their aliases, as the spec lists them. *)
Inductive family := Python | JavaScript | Shell.

Definition aliases (f : family) : list string :=
  match f with
  | Python => ["py"; "python"]
  | JavaScript => ["js"; "node"; "javascript"]
  | Shell => ["sh"; "bash"]
  end.

Definition recognised (language : string) : Prop :=
  exists f, lower language ∈ aliases f.

(** The interpreter of a family cannot be resolved on the search path. *)
Definition resolvable (h : Host) (name : string) : bool :=
  truthy_opt (which h name).

Definition interpreter_missing (h : Host) (f : family) : Prop :=
  match f with
  | Python => resolvable h "python3" = false /\ resolvable h "python" = false
  | JavaScript => resolvable h "node" = false
  | Shell => resolvable h "bash" = false /\ resolvable h "sh" = false
  end.

Definition not_found_message (f : family) : string :=
  match f with
  | Python => "python interpreter not found on server."
  | JavaScript => "node not found on server."
  | Shell => "sh/bash not found on server."
  end.

Definition source_file (f : family) : string :=
  match f with
  | Python => "main.py"
  | JavaScript => "main.js"
  | Shell => "run.sh"
  end.


(** The child did not exit before the deadline. *)
Definition overruns (c : child_behaviour) (timeout : Z) : Prop :=
  exits_within c timeout = false.

#[global] Instance recognised_dec language : Decision (recognised language).
Proof.
  unfold recognised.
  destruct (decide (lower language ∈ aliases Python)); [left; eauto|].
  destruct (decide (lower language ∈ aliases JavaScript)); [left; eauto|].
  destruct (decide (lower language ∈ aliases Shell)); [left; eauto|].
  right. intros [[] H]; contradiction.
Defined.

(** What a claim about rejected tags asks of a run: an [error] result, no
    process, no workspace. *)
Definition rejected_untouched (r : run (gmap string value)) : Prop :=
  (exists msg, outcome r = Ret (error_result msg)) /\
  spawns (events r) = [] /\
  created (events r) = [].


(** The result for a child whose pipes were read to their end and that
    was waited for within the timeout. *)
Definition communicated (h : Host) (c : child_behaviour) : gmap string value :=
  match decode h (stdout_bytes c) with
  | inl msg => error_result ("Execution error: " +:+ msg)
  | inr out =>
      match decode h (stderr_bytes c) with
      | inl msg => error_result ("Execution error: " +:+ msg)
      | inr err =>
          completion_result (returncode c) (translate_newlines out)
            (translate_newlines err)
      end
  end.

(** What is known once the interpreter was started on the snippet. *)
Definition started (h : Host) (t : Z) (cmd : list string) (cwd : string)
    (lims : rlimits) (r : run (gmap string value)) : Prop :=
  (if POSIX h then _set_limits h (inherited_limits h) = inr lims
   else lims = inherited_limits h) /\
  EvMkdtemp cwd ∈ events r /\
  EvFork cmd cwd t ∈ events r /\
  let c := child h cmd cwd lims in
  if exits_within c t
  then (forall cmd', EvKill cmd' ∉ events r) /\
       outcome r =
         Ret (if eof_within c t then communicated h c
              else timeout_result (payload (captured_stdout c))
                     (payload (captured_stderr c)))
  else outcome r = Ret (timeout_result (payload (captured_stdout c))
                          (payload (captured_stderr c))) /\
       EvKill cmd ∈ events r.


(** The host [h] with another behaviour of [shutil.rmtree]. *)
Definition with_rmtree_error (f : string -> option string) (h : Host) : Host :=
  {| POSIX := POSIX h;
     privileged := privileged h;
     inherited_limits := inherited_limits h;
     gettempdir := gettempdir h;
     fresh_name := fresh_name h;
     search_path := search_path h;
     write_error := write_error h;
     chmod_error := chmod_error h;
     exec_error := exec_error h;
     child := child h;
     decode := decode h;
     rmtree_error := f |}.

(** The host [h] with other limits of the server process. *)
Definition with_limits (l : rlimits) (h : Host) : Host :=
  {| POSIX := POSIX h;
     privileged := privileged h;
     inherited_limits := l;
     gettempdir := gettempdir h;
     fresh_name := fresh_name h;
     search_path := search_path h;
     write_error := write_error h;
     chmod_error := chmod_error h;
     exec_error := exec_error h;
     child := child h;
     decode := decode h;
     rmtree_error := rmtree_error h |}.

(** ** Example hosts *)

Module Demo.

Definition unlimited : rlimits := fun _ => (RLIM_INFINITY, RLIM_INFINITY).

(** A search path with the three interpreters, and an empty one. *)
Definition usr_bin (name : string) : option string :=
  if decide (name ∈ ["python3"; "node"; "bash"])
  then Some ("/usr/bin/" +:+ name) else None.

Definition no_path (_ : string) : option string := None.

(** The ASCII codec with strict error handling, and the text of the
    [UnicodeDecodeError] it raises at the first byte above 127. *)
Definition hex_digit (n : N) : ascii :=
  ascii_of_N (if (n <? 10)%N then 48 + n else 87 + n).

Definition hex2 (b : Byte.byte) : string :=
  String (hex_digit (Byte.to_N b / 16))
    (String (hex_digit (Byte.to_N b mod 16)) EmptyString).

Fixpoint ascii_decode (pos : nat) (b : bytes) : string + string :=
  match b with
  | [] => inr EmptyString
  | x :: rest =>
      if (Byte.to_N x <? 128)%N
      then match ascii_decode (S pos) rest with
           | inr s => inr (String (ascii_of_byte x) s)
           | inl msg => inl msg
           end
      else inl ("'ascii' codec can't decode byte 0x" +:+ hex2 x +:+
                " in position " +:+ NilEmpty.string_of_uint (Nat.to_uint pos) +:+
                ": ordinal not in range(128)")
  end.

(** The [bytes] literal with the characters of [s]. *)
Definition bytes_of (s : string) : bytes := list_byte_of_string s.

Definition host (posix : bool) (path : string -> option string)
    (tmp : option string) (werr rmerr : option string)
    (c : child_behaviour) : Host :=
  {| POSIX := posix;
     privileged := false;
     inherited_limits := unlimited;
     gettempdir := "/tmp";
     fresh_name := tmp;
     search_path := path;
     write_error := fun _ _ => werr;
     chmod_error := fun _ => None;
     exec_error := fun _ => None;
     child := fun _ _ _ => c;
     decode := ascii_decode 0;
     rmtree_error := fun _ => rmerr |}.

(** Children: one that prints 2 and exits, one that exits with status 1,
    one that never exits and is silent, one that never exits and from
    which [n] bytes had been read when the deadline passed; one that prints two
    lines ending in CR LF, one that writes a byte that is not ASCII and
    exits with status 1, and one that exits at once and leaves a
    background process behind that keeps the pipes open. *)
Definition prints_two : child_behaviour :=
  Child (Some 40) (Some 40) 0 (bytes_of "2") [] NoOutput NoOutput.
Definition fails : child_behaviour :=
  Child (Some 40) (Some 40) 1 [] (bytes_of "boom") NoOutput NoOutput.
Definition hangs : child_behaviour := Child None None 0 [] [] NoOutput NoOutput.

Definition xs (n : nat) : bytes := repeat Byte.x78 n.

Definition floods (n : Z) : child_behaviour :=
  Child None None 0 [] [] (CapturedBytes (xs (Z.to_nat n))) NoOutput.





(** A Linux host with the interpreters in [/usr/bin], whose locale
    encoding is ASCII. *)
Definition linux (c : child_behaviour) : Host :=
  host true usr_bin (Some "k3x9") None None c.

Definition workspace : string := "/tmp/ai_run_k3x9".

End Demo.

(** ** Vocabulary for further properties of [run_code] *)

(** The interpreter [run_code] resolves for a family (lines 122, 131 and
    141), and the command line it builds from it (lines 125, 134, 144). *)
Definition interpreter (h : Host) (f : family) : option string :=
  match f with
  | Python => or_opt (which h "python3") (which h "python")
  | JavaScript => which h "node"
  | Shell => or_opt (which h "bash") (which h "sh")
  end.

Definition command_line (f : family) (exe : string) : list string :=
  match f with
  | Python => [exe; "-u"; "main.py"]
  | JavaScript => [exe; "main.js"]
  | Shell => [exe; "run.sh"]
  end.

(** The tag the docstring of [run_code] uses for a family. *)
Definition canonical (f : family) : string :=
  match f with
  | Python => "python"
  | JavaScript => "node"
  | Shell => "bash"
  end.

Definition is_fork (ev : event) : bool :=
  match ev with EvFork _ _ _ => true | _ => false end.

Definition is_exec (ev : event) : bool :=
  match ev with EvExec _ _ _ => true | _ => false end.

(** ** Regular expressions ([re]) and [extract_first_code_block] *)

Module Re.

(** The constructs [CODE_FENCE_RE] is made of.  [Plus] is the greedy
    [[set]+], [LazyAny] is [.*?] under [re.S] (the dot matches every
    character), [Opt] is the greedy [(?:r)?] and [Group n] the capturing
    group number [n]. *)
Inductive pattern :=
| Lit (s : string)
| Plus (set : ascii -> bool)
| LazyAny
| Group (n : nat) (r : pattern)
| Opt (r : pattern)
| Seq (r1 r2 : pattern).

(** [strip_prefix p s] is the rest of [s] after the literal [p]. *)
Fixpoint strip_prefix (p s : string) : option string :=
  match p with
  | EmptyString => Some s
  | String a p' =>
      match s with
      | String b s' => if Ascii.eqb a b then strip_prefix p' s' else None
      | EmptyString => None
      end
  end.

(** The text between a position [s] and a later position [s'] (both given
    as the rest of the subject). *)
Definition consumed (s s' : string) : string :=
  substring 0 (String.length s - String.length s') s.

Section Matcher.

Context {A : Type}.

(** The matcher tries the alternatives in the order of a backtracking
    engine; [k] is the rest of the match, given the rest of the subject. *)

(** Greedy repetition: the longest run first, then shorter ones. *)
Fixpoint plus_set (set : ascii -> bool) (s : string)
    (k : string -> option A) : option A :=
  match s with
  | String c s' =>
      if set c
      then match plus_set set s' k with
           | Some x => Some x
           | None => k s'
           end
      else None
  | EmptyString => None
  end.

(** Lazy repetition: the shortest run first. *)
Fixpoint lazy_any (s : string) (k : string -> option A) : option A :=
  match k s with
  | Some x => Some x
  | None =>
      match s with
      | String _ s' => lazy_any s' k
      | EmptyString => None
      end
  end.

Fixpoint exec (r : pattern) (s : string) (caps : gmap nat string)
    (k : string -> gmap nat string -> option A) : option A :=
  match r with
  | Lit p =>
      match strip_prefix p s with
      | Some s' => k s' caps
      | None => None
      end
  | Plus set => plus_set set s (fun s' => k s' caps)
  | LazyAny => lazy_any s (fun s' => k s' caps)
  | Group n r' =>
      exec r' s caps (fun s' caps' => k s' (<[n := consumed s s']> caps'))
  | Opt r' =>
      match exec r' s caps k with
      | Some x => Some x
      | None => k s caps
      end
  | Seq r1 r2 => exec r1 s caps (fun s' caps' => exec r2 s' caps' k)
  end.

End Matcher.

(** [pattern.search(s)]: the match at the leftmost position that has one;
    the result is the groups of the match. *)
Fixpoint search (r : pattern) (s : string) : option (gmap nat string) :=
  match exec r s ∅ (fun _ caps => Some caps) with
  | Some caps => Some caps
  | None =>
      match s with
      | String _ s' => search r s'
      | EmptyString => None
      end
  end.

(** [\w] on the code points below 256: letters, digits and the
    underscore. *)
Definition word_char (c : ascii) : bool :=
  let n := N_of_ascii c in
  (((48 <=? n) && (n <=? 57)) || ((65 <=? n) && (n <=? 90)) || (n =? 95) ||
   ((97 <=? n) && (n <=? 122)) || (n =? 170) || (n =? 178) || (n =? 179) ||
   (n =? 181) || (n =? 185) || (n =? 186) || ((188 <=? n) && (n <=? 190)) ||
   ((192 <=? n) && (n <=? 214)) || ((216 <=? n) && (n <=? 246)) ||
   (248 <=? n))%N.

End Re.

(** The line feed, and the code fence. *)
Definition LF : string := String "010"%char EmptyString.
Definition fence : string := "```".

(** The class [[\w+-]]. *)
Definition label_char (c : ascii) : bool :=
  Re.word_char c || Ascii.eqb c "+"%char || Ascii.eqb c "-"%char.

(** [CODE_FENCE_RE], line 77: three backquotes, optionally a label and a
    line feed, as little text as possible, and three backquotes again. *)
Definition CODE_FENCE_RE : Re.pattern :=
  Re.Seq (Re.Lit "```")
    (Re.Seq (Re.Opt (Re.Seq (Re.Group 1 (Re.Plus label_char)) (Re.Lit LF)))
       (Re.Seq (Re.Group 2 Re.LazyAny) (Re.Lit "```"))).

(** [m.group(n)]: [None] for a group that took no part in the match. *)
Definition group (m : gmap nat string) (n : nat) : option string := m !! n.

(** [extract_first_code_block], lines 79-90.  The second component is a
    string in both branches: group 2 takes part in every match. *)
Definition extract_first_code_block (text : string) : option string * string :=
  match Re.search CODE_FENCE_RE text with
  | Some m =>
      let lang := or_opt (group m 1) None in
      let code := default "" (group m 2) in
      (lang, code)
  | None => (None, text)
  end.

(** A text with a code fence inside, and a text that ends in a backquote. *)
Definition contains_fence (s : string) : Prop :=
  exists a b, s = a +:+ fence +:+ b.

Definition ends_with_backquote (s : string) : Prop :=
  exists a, s = a +:+ "`".

(** A label: a non-empty run of [label_char]s. *)
Fixpoint all_chars (p : ascii -> bool) (s : string) : bool :=
  match s with
  | EmptyString => true
  | String c s' => p c && all_chars p s'
  end.

Definition is_label (s : string) : bool := truthy s && all_chars label_char s.

(** A text in which no code fence starts: it has no fence inside and
    does not end in a backquote (which would open a fence together with
    one that follows). *)
Definition fence_free (s : string) : Prop :=
  ~ contains_fence s /\ ~ ends_with_backquote s.

(** A text with an opening and a closing fence. *)
Definition closed_block (s : string) : Prop :=
  exists a b c, s = a +:+ fence +:+ b +:+ fence +:+ c.

(** The label line of a block, if it has one. *)
Definition label_text (lang : option string) : string :=
  match lang with
  | Some l => l +:+ LF
  | None => ""
  end.

(** A block body that does not start with a label line. *)
Definition unlabelled (body : string) : Prop :=
  forall l rest, body = l +:+ LF +:+ rest -> is_label l = false.

(** The same as a test: no fence inside, no backquote at the end. *)
Fixpoint has_fence (s : string) : bool :=
  match Re.strip_prefix fence s with
  | Some _ => true
  | None =>
      match s with
      | String _ s' => has_fence s'
      | EmptyString => false
      end
  end.

Fixpoint ends_in_backquote (s : string) : bool :=
  match s with
  | EmptyString => false
  | String c EmptyString => Ascii.eqb c "`"
  | String _ s' => ends_in_backquote s'
  end.

Definition fence_freeb (s : string) : bool :=
  negb (has_fence s) && negb (ends_in_backquote s).

(** The rest of the pattern after group 2: the closing fence. *)
Definition closing (s2 : string) (caps : gmap nat string) (s' : string)
    : option (gmap nat string) :=
  match Re.strip_prefix "```" s' with
  | Some _ => Some (<[2%nat := Re.consumed s2 s']> caps)
  | None => None
  end.

(** ** The HTTP layer: [call_ai] and the routes *)

Module Http.

(** JSON values as [json.loads] gives them (numbers are kept to the
    integers; an object is the list of its members, keys distinct). *)
#[local] Set Warnings "-register-all".
Inductive json :=
| JNull
| JBool (b : bool)
| JNum (z : Z)
| JStr (s : string)
| JArr (items : list json)
| JObj (members : list (string * json)).
#[local] Set Warnings "register-all".

(** Truth value of a JSON value in Python. *)
Definition truthy_json (v : json) : bool :=
  match v with
  | JNull => false
  | JBool b => b
  | JNum z => negb (z =? 0)%Z
  | JStr s => truthy s
  | JArr items => match items with [] => false | _ => true end
  | JObj members => match members with [] => false | _ => true end
  end.

(** [jr.get(key)] on a parsed object. *)
Fixpoint member (key : string) (members : list (string * json)) : option json :=
  match members with
  | [] => None
  | (k, v) :: rest => if String.eqb k key then Some v else member key rest
  end.

(** The environment of the server: [INFERENCE_URL] and [INFERENCE_KEY]
    (lines 29-30), each unset or a string. *)
Record Config := {
  INFERENCE_URL : option string;
  INFERENCE_KEY : option string
}.

(** A call of [requests.post(url, headers=..., json={"input": ...},
    timeout=...)], and what comes back: an exception, or a response with
    its body as JSON ([None] when [r.json()] raises) and as text. *)
Record http_request := {
  req_url : string;
  req_authorization : string;
  req_content_type : string;
  req_input : string;
  req_timeout : Z
}.

Inductive http_outcome :=
| HttpRaises (msg : string)
| HttpResponse (body : option json) (text : string).

(** What a route returns: a JSON body with a status, or an exception that
    is left to the framework. *)
Inductive response (B : Type) :=
| Reply (body : B) (status : Z)
| Unhandled (e : exn).
Arguments Reply {B} body status.
Arguments Unhandled {B} e.

Section Routes.

Variable cfg : Config.
Variable post : http_request -> http_outcome.
(** [json.dumps], which the source takes from the standard library. *)
Variable dumps : json -> string.

(** Both [INFERENCE_URL] and [INFERENCE_KEY] are set and not empty. *)
Definition configured : bool :=
  truthy_opt (INFERENCE_URL cfg) && truthy_opt (INFERENCE_KEY cfg).

(** The request of lines 50-57. *)
Definition ai_request (prompt : string) (timeout : Z) : http_request :=
  {| req_url := default "" (INFERENCE_URL cfg);
     req_authorization := "Bearer " +:+ default "" (INFERENCE_KEY cfg);
     req_content_type := "application/json";
     req_input := prompt;
     req_timeout := timeout |}.

(** [call_ai], lines 41-72: the result dictionary and the requests made. *)
Definition call_ai (prompt : string) (timeout : Z)
    : gmap string json * list http_request :=
  if negb (truthy_opt (INFERENCE_URL cfg)) || negb (truthy_opt (INFERENCE_KEY cfg))
  then ({[ "error" := JStr "INFERENCE_URL or INFERENCE_KEY not configured on server." ]},
        [])
  else
    let req := ai_request prompt timeout in
    match post req with
    | HttpRaises e =>
        ({[ "error" := JStr ("Failed to call inference endpoint: " +:+ e) ]}, [req])
    | HttpResponse (Some jr) text =>
        match jr with
        | JObj members =>
            match member "output" members with
            | Some out =>
                ({[ "ok" := JBool true; "raw" := jr; "text" := out ]}, [req])
            | None =>
                ({[ "ok" := JBool true; "raw" := jr; "text" := JStr (dumps jr) ]},
                 [req])
            end
        | _ =>
            ({[ "ok" := JBool true; "raw" := jr; "text" := JStr (dumps jr) ]}, [req])
        end
    | HttpResponse None text =>
        ({[ "ok" := JBool true; "raw" := JStr text; "text" := JStr text ]}, [req])
    end.

(** The prompt of [chat_proxy], lines 456-460. *)
Definition chat_prompt (user_msg : string) : string :=
  "You are a helpful coding assistant. The user said:" +:+ LF +:+ LF +:+
  user_msg +:+ LF +:+ LF +:+
  "If you include code, wrap code blocks in triple backticks and label the language when possible."
  +:+ LF +:+
  "Respond succinctly but clearly.".

(** [chat_proxy], lines 445-467, on a request body that is a JSON object
    with string members. *)
Definition chat_proxy (data : gmap string string)
    : response (gmap string json) * list http_request :=
  let user_msg := default "" (data !! "message") in
  if negb (truthy user_msg)
  then (Reply {[ "error" := JStr "No message provided" ]} 400, [])
  else
    let prompt := chat_prompt user_msg in
    let '(r, reqs) := call_ai prompt 30 in
    match r !! "error" with
    | Some e => (Reply {[ "error" := e ]} 500, reqs)
    | None =>
        let reply :=
          match r !! "text" with
          | Some v => if truthy_json v then v else JStr ""
          | None => JStr ""
          end in
        (Reply {[ "reply" := reply ]} 200, reqs)
    end.

(** The prompt of [autofix_endpoint], lines 500-509. *)
Definition autofix_prompt (language code logs : string) : string :=
  "You are an expert developer. The user provided the following code and logs."
  +:+ LF +:+ LF +:+
  "=== CODE ===" +:+ LF +:+
  "```" +:+ language +:+ LF +:+ code +:+ LF +:+ "```" +:+ LF +:+ LF +:+
  "=== LOGS ===" +:+ LF +:+
  logs +:+ LF +:+ LF +:+
  "Analyze the logs, find the bug(s), and provide a corrected version of the code. "
  +:+
  "Return ONLY the corrected source file in triple backticks, labeled with the language, "
  +:+
  "and nothing else. If multiple files are needed, return multiple fenced blocks with filenames as comments.".

Definition json_of_option (o : option string) : json :=
  match o with
  | Some s => JStr s
  | None => JNull
  end.

(** [autofix_endpoint], lines 487-518, on a request body that is a JSON
    object with string members.  [CODE_FENCE_RE.search] raises
    [TypeError] on a text that is not a string. *)
Definition autofix_endpoint (data : gmap string string)
    : response (gmap string json) * list http_request :=
  let code := default "" (data !! "code") in
  let logs := default "" (data !! "logs") in
  let language := default "python" (data !! "language") in
  if negb (truthy code)
  then (Reply {[ "error" := JStr "No code provided" ]} 400, [])
  else
    let prompt := autofix_prompt language code logs in
    let '(r, reqs) := call_ai prompt 60 in
    match r !! "error" with
    | Some e => (Reply {[ "error" := e ]} 500, reqs)
    | None =>
        let text := default (JStr "") (r !! "text") in
        match text with
        | JStr s =>
            let '(lang_found, code_block) := extract_first_code_block s in
            (Reply {[ "suggested" := text;
                      "code" := JStr (or_str code_block "");
                      "lang" := json_of_option lang_found ]} 200, reqs)
        | _ => (Unhandled (Exception "expected string or bytes-like object"), reqs)
        end
    end.

End Routes.

(** [jsonify] on a dictionary of [run_code]: the JSON encoder has no
    representation for [bytes] and raises [TypeError] on them. *)
Definition serializable (v : value) : bool :=
  match v with
  | VBytes _ => false
  | _ => true
  end.

Definition jsonify (d : gmap string value) : M (gmap string value) :=
  if map_fold (fun _ v ok => ok && serializable v) true d
  then mret d
  else raise (Exception "Object of type bytes is not JSON serializable").

(** [run_endpoint], lines 471-483, on a request body that is a JSON
    object with string members.  An exception of [run_code] or of
    [jsonify] is left to the framework. *)
Definition run_endpoint (h : Host) (data : gmap string string)
    : M (gmap string value * Z) :=
  let language := default "python" (data !! "language") in
  let code := default "" (data !! "code") in
  if negb (truthy code)
  then
    body ← jsonify {[ "error" := VStr "No code provided" ]};
    mret (body, 400)
  else
    res ← run_code h language code 10;
    body ← jsonify res;
    mret (body, 200).

End Http.

(** A configured server and an inference service that answers every
    request with a JSON object whose [output] is [out]. *)
Module Sample.

Definition cfg : Http.Config :=
  {| Http.INFERENCE_URL := Some "https://inference.example/v1";
     Http.INFERENCE_KEY := Some "sk-test" |}.

Definition answers (out : Http.json) (_ : Http.http_request) : Http.http_outcome :=
  Http.HttpResponse (Some (Http.JObj [("output", out)])) "".

Definition dumps (_ : Http.json) : string := "{}".

(** A request for a fix, and an answer with a labelled block. *)
Definition broken : gmap string string := {[ "code" := "print(1" ]}.

(** Request bodies for [/run] and [/chat]. *)
Definition sleeper : gmap string string :=
  {[ "code" := "import sys, time; sys.stdout.write('xxxxx'); time.sleep(60)" ]}.

Definition question : gmap string string :=
  {[ "message" := "How do I keep the order?" ]}.

Definition fixed : string := fence +:+ "py" +:+ LF +:+ "print(2)" +:+ fence.

End Sample.

(** ** Tactics for the case analysis of a run *)

(** Splits on the innermost test of the goal. *)
Ltac inner_case :=
  match goal with
  | |- context [match ?x with _ => _ end] =>
      lazymatch x with
      | context [match _ with _ => _ end] => fail
      | _ => destruct x eqn:?
      end
  end.

Ltac run_unfold :=
  unfold run_code, cleanup, try_body, dispatch, handlers, subprocess_run,
    mkdtemp, rmtree, write_file, chmod;
  unfold mbind, M_bind, mret, M_ret;
  unfold try_finally, try_except, bind, ret, raise, emit;
  cbn [app].

(** Enumerates the code paths of the [run_code] call in the goal: one goal
    per path, with the outcome, the directories and the log of that path
    substituted for the call. *)
Ltac run_cases :=
  lazymatch goal with
  | |- context [run_code ?h ?l ?c ?t ?fs] =>
      let E := fresh "E" in
      destruct (run_code h l c t fs) as [o fs' evs] eqn:E;
      revert E;
      lazymatch goal with
      | |- _ -> ?G =>
          let P := fresh "P" in
          set (P := G);
          run_unfold;
          repeat (inner_case; cbn [app]);
          subst P; cbn [outcome dirs events];
          intros E; try discriminate E; injection E as <- <- <-
      end
  end.

(** Inverts membership in an explicit list of events or strings. *)
Ltac elem_inv :=
  repeat match goal with
  | H : _ ∈ [] |- _ => apply elem_of_nil in H; destruct H
  | H : _ ∈ _ :: _ |- _ =>
      apply elem_of_cons in H; destruct H as [H | H];
      [ try discriminate H; simplify_eq | ]
  end.

Ltac elem_here :=
  repeat first [ apply list_elem_of_here | apply list_elem_of_further ].

(** Picks the kind of an explicit result dictionary. *)
Ltac shape :=
  lazymatch goal with
  | |- context [VInt _] =>
      left; do 3 eexists; unfold completion_result; reflexivity
  | |- context [VNone] =>
      right; left; do 2 eexists; unfold timeout_result; reflexivity
  | _ =>
      right; right; eexists; unfold error_result;
      split; [ | reflexivity ]; reflexivity
  end.

(** * Facts about the embedding *)

(** ** Strings and result dictionaries *)




Lemma or_opt_falsy a b :
  truthy_opt a = false -> truthy_opt b = false -> truthy_opt (or_opt a b) = false.
Proof. unfold or_opt. intros -> ->. reflexivity. Qed.

Lemma or_value_truthy v dflt : truthy_value v = true -> or_value v dflt = v.
Proof. unfold or_value. now intros ->. Qed.


Lemma or_str_nonempty s dflt : s <> "" -> or_str s dflt = s.
Proof. destruct s; [congruence | reflexivity]. Qed.

Lemma error_result_kind msg :
  truthy msg = true ->
  is_completion (error_result msg) = false /\
  is_timeout (error_result msg) = false /\
  is_error (error_result msg) = true.
Proof. intros H. repeat split; vm_compute; [reflexivity .. | exact H]. Qed.

Lemma completion_result_kind rc out err :
  is_completion (completion_result rc out err) = true /\
  is_timeout (completion_result rc out err) = false /\
  is_error (completion_result rc out err) = false.
Proof. repeat split. Qed.

Lemma timeout_result_kind o e :
  is_completion (timeout_result o e) = false /\
  is_timeout (timeout_result o e) = true /\
  is_error (timeout_result o e) = false.
Proof. repeat split. Qed.

(** ** [_set_limits] *)

Lemma setrlimit_inr p r v cur l :
  setrlimit p r v cur = inr l -> l = set_limit r v cur.
Proof.
  unfold setrlimit. repeat case_match; congruence.
Qed.


Lemma setrlimit_room p r v cur :
  rlim_leb (fst v) (snd v) = true ->
  snd (cur r) = RLIM_INFINITY ->
  setrlimit p r v cur = inr (set_limit r v cur).
Proof.
  intros Hv Hr. unfold setrlimit. rewrite Hv, Hr. cbn [negb].
  destruct (snd v); cbn [rlim_leb negb]; now rewrite andb_false_r.
Qed.

Lemma set_limit_other r r' v cur : r <> r' -> set_limit r v cur r' = cur r'.
Proof. intros Hne. unfold set_limit. now destruct (decide (r = r')). Qed.

(** It returns whenever the server's hard limits leave room for the policy,
    so the statement above is not empty. *)
Lemma _set_limits_succeeds h cur :
  (forall r, snd (cur r) = RLIM_INFINITY) ->
  exists l, _set_limits h cur = inr l.
Proof.
  intros Hinf. unfold _set_limits.
  destruct (POSIX h); cbn [negb]; [|eauto].
  rewrite setrlimit_room by (auto; reflexivity).
  rewrite setrlimit_room;
    [ | reflexivity | rewrite set_limit_other by discriminate; apply Hinf ].
  rewrite setrlimit_room;
    [ eauto | reflexivity | rewrite !set_limit_other by discriminate; apply Hinf ].
Qed.

Lemma _set_limits_not_posix h cur :
  POSIX h = false -> _set_limits h cur = inr cur.
Proof. intros Hp. unfold _set_limits. now rewrite Hp. Qed.

(** ** Case analysis of a run *)

(** Every dictionary [run_code] returns is of one of the three kinds. *)
Lemma returned_shape h language code t fs d :
  outcome (run_code h language code t fs) = Ret d ->
  (exists rc out err, d = completion_result rc out err) \/
  (exists output stderr, d = timeout_result output stderr) \/
  (exists msg, truthy msg = true /\ d = error_result msg).
Proof.
  run_cases; intros [= <-]; shape.
Qed.

Lemma exec_inversion h language code t fs cmd cwd lims :
  EvExec cmd cwd lims ∈ events (run_code h language code t fs) ->
  started h t cmd cwd lims (run_code h language code t fs).
Proof.
  run_cases; intros Hin; elem_inv; unfold started, communicated;
    cbn [outcome events];
    repeat match goal with
    | H : POSIX h = _ |- _ => rewrite H
    | H : exits_within _ _ = _ |- _ => rewrite H
    | H : eof_within _ _ = _ |- _ => rewrite H
    | H : decode h _ = _ |- _ => rewrite H
    end;
    (split; [ solve [ assumption | reflexivity ] | ]);
    (split; [ elem_here | ]);
    (split; [ elem_here | ]);
    cbn zeta; unfold completion_result, timeout_result, error_result;
    first [ split; [ reflexivity | solve [ elem_here ] ]
          | split; [ intros cmd' Hk; elem_inv | reflexivity ] ].
Qed.



(** The outcome of [run_code] is decided before the [finally] block: it
    is the outcome of the [try] statement with its handlers, whatever
    [shutil.rmtree] does. *)
Lemma cleanup_returns h d fs : outcome (cleanup h d fs) = Ret tt.
Proof.
  unfold cleanup, try_except, rmtree, mret, M_ret, ret.
  destruct (rmtree_error h d); reflexivity.
Qed.

Lemma run_code_outcome h language code t fs :
  outcome (run_code h language code t fs) =
  match mkdtemp h "ai_run_" fs with
  | Run (Ret d) fs1 _ =>
      outcome (try_except
                 (try_body h (lower (or_str language "python")) code t d)
                 handlers fs1)
  | Run (Raise e) _ _ => Raise e
  end.
Proof.
  unfold run_code, mbind, M_bind, bind, try_finally.
  destruct (mkdtemp h "ai_run_" fs) as [[d|e] fs1 ev1]; [|reflexivity].
  destruct (try_except _ _ fs1) as [o fs2 ev2].
  pose proof (cleanup_returns h d fs2) as Hc.
  destruct (cleanup h d fs2) as [[[]|e] fs3 ev3]; [reflexivity | discriminate].
Qed.


(** * The claims *)

(** ** C1: the workspace does not outlive the call *)




(** ** C2: unsupported language tags *)

(** C2, as stated, fails: "ruby" is not an alias of a supported language,
    and the call creates a workspace directory before it looks at the
    tag. *)
Lemma ruby_creates_workspace :
  ~ recognised "ruby" /\
  ~ rejected_untouched (run_code (Demo.linux Demo.prints_two) "ruby" "puts 1" 10 ∅).
Proof.
  split.
  - apply (bool_decide_eq_false_1 _). vm_compute. reflexivity.
  - intros (_ & _ & Hcreated). vm_compute in Hcreated. discriminate.
Qed.

(** An empty tag is not rejected either: it is run as Python. *)
Lemma empty_language_is_python h code t fs :
  run_code h "" code t fs = run_code h "python" code t fs.
Proof. reflexivity. Qed.

(** C2 (amended): for every non-empty tag whose lower-case form is not an
    alias of Python, JavaScript or Shell, and whenever the temporary
    directory can be created, [run_code] returns the result
    [{"success": False, "error": "Unsupported language: <tag>"}] with the
    tag in lower case; no process is spawned and no file is written, and
    the only directory created is the workspace, made before the tag is
    examined. *)
Theorem unsupported_language h language code t fs sfx :
  language <> "" ->
  ~ recognised language ->
  fresh_name h = Some sfx ->
  path_join (gettempdir h) ("ai_run_" +:+ sfx) ∉ fs ->
  outcome (run_code h language code t fs) =
    Ret (error_result ("Unsupported language: " +:+ lower language)) /\
  spawns (events (run_code h language code t fs)) = [] /\
  created (events (run_code h language code t fs)) =
    [path_join (gettempdir h) ("ai_run_" +:+ sfx)] /\
  (forall p c, EvWrite p c ∉ events (run_code h language code t fs)).
Proof.
  intros Hne Hnr Hfresh Hnew.
  run_cases; simplify_eq; try contradiction;
    repeat match goal with H : decide _ = _ |- _ => clear H end;
    try match goal with
    | H : context [or_str language _] |- _ =>
        exfalso; rewrite (or_str_nonempty language) in H by assumption;
        apply Hnr; first [ now exists Python | now exists JavaScript | now exists Shell ]
    end;
    rewrite (or_str_nonempty language) by assumption;
    (repeat split; try reflexivity); intros p c Hin; elem_inv.
Qed.

Lemma unsupported_language_witness :
  outcome (run_code (Demo.linux Demo.prints_two) "Ruby" "puts 1" 10 ∅) =
    Ret (error_result "Unsupported language: ruby") /\
  spawns (events (run_code (Demo.linux Demo.prints_two) "Ruby" "puts 1" 10 ∅)) = [] /\
  created (events (run_code (Demo.linux Demo.prints_two) "Ruby" "puts 1" 10 ∅)) =
    [Demo.workspace] /\
  (forall p c, EvWrite p c ∉
     events (run_code (Demo.linux Demo.prints_two) "Ruby" "puts 1" 10 ∅)).
Proof.
  apply (unsupported_language (Demo.linux Demo.prints_two) "Ruby" "puts 1" 10 ∅ "k3x9").
  - discriminate.
  - apply (bool_decide_eq_false_1 _). vm_compute. reflexivity.
  - reflexivity.
  - apply not_elem_of_empty.
Defined.

(** ** C3: length of the captured output *)


(** On the timeout path what was captured is returned as it is. *)
Lemma timeout_fields_verbatim o e :
  (truthy_value o = true -> timeout_result o e !! "stdout" = Some o) /\
  (truthy_value e = true -> timeout_result o e !! "stderr" = Some e).
Proof.
  split; intros Hv.
  - change (timeout_result o e !! "stdout") with (Some (or_value o (VStr ""))).
    now rewrite or_value_truthy.
  - change (timeout_result o e !! "stderr") with (Some (or_value e (VStr "TIMEOUT"))).
    now rewrite or_value_truthy.
Qed.

Lemma xs_length n : length (Demo.xs n) = n.
Proof. apply repeat_length. Qed.

Lemma xs_truthy n : (0 < n)%nat -> truthy_value (VBytes (Demo.xs n)) = true.
Proof. destruct n; [lia | reflexivity]. Qed.

(** A snippet that never exits and had printed [n] characters when the
    deadline passed: the result carries all [n] of them. *)
Lemma flood_is_returned n code t :
  0 < n ->
  exists d,
    outcome (run_code (Demo.linux (Demo.floods n)) "python" code t ∅) = Ret d /\
    is_timeout d = true /\
    field_len d "stdout" = Some n.
Proof.
  intros Hn.
  assert (Hexec : EvExec ["/usr/bin/python3"; "-u"; "main.py"] Demo.workspace
            (set_limit RLIMIT_FSIZE (Lim 10485760, Lim 10485760)
               (set_limit RLIMIT_AS (Lim 268435456, Lim 268435456)
                  (set_limit RLIMIT_CPU (Lim 6, Lim 8) Demo.unlimited)))
          ∈ events (run_code (Demo.linux (Demo.floods n)) "python" code t ∅)).
  { vm_compute. do 3 apply list_elem_of_further. apply list_elem_of_here. }
  destruct (exec_inversion _ _ _ _ _ _ _ _ Hexec) as (_ & _ & _ & Hrun).
  cbn in Hrun. destruct Hrun as [Hout _].
  eexists. split; [exact Hout|]. split; [reflexivity|].
  assert (Ht : truthy_value (VBytes (Demo.xs (Z.to_nat n))) = true)
    by (apply xs_truthy; lia).
  unfold field_len.
  rewrite (proj1 (timeout_fields_verbatim _ _) Ht).
  rewrite xs_length. f_equal. lia.
Qed.

(** C3 (the code misses the bound on the timeout path): a snippet that
    had printed 20,001 characters when the deadline passed yields a
    timed-out result whose [stdout] holds all 20,001 of them (as [bytes],
    on this POSIX host). *)
Lemma timeout_stdout_exceeds_bound :
  exists d,
    outcome (run_code (Demo.linux (Demo.floods 20001)) "python"
               "while True: print('x', end='')" 10 ∅) = Ret d /\
    is_timeout d = true /\
    field_len d "stdout" = Some 20001.
Proof. apply flood_is_returned. lia. Qed.

(** ** C4: the three terminal outcomes exclude each other *)

(** C4: every result [run_code] returns is exactly one of: a completion
    (integer [exit_code], [timed_out] false, no [error]), a timeout
    ([timed_out] true, [exit_code] [None]), an error result (non-empty
    [error], no [exit_code]). *)
Theorem one_terminal_outcome h language code t fs d :
  outcome (run_code h language code t fs) = Ret d ->
  exactly_one (is_completion d) (is_timeout d) (is_error d).
Proof.
  intros Hret. unfold exactly_one.
  destruct (returned_shape _ _ _ _ _ _ Hret)
    as [(rc & out & err & ->) | [(o & e & ->) | (msg & Hmsg & ->)]].
  - left. apply completion_result_kind.
  - right; left. apply timeout_result_kind.
  - right; right. now apply error_result_kind.
Qed.

Lemma one_terminal_outcome_witness :
  exactly_one (is_completion (completion_result 1 "" "boom"))
              (is_timeout (completion_result 1 "" "boom"))
              (is_error (completion_result 1 "" "boom")).
Proof.
  apply (one_terminal_outcome (Demo.linux Demo.fails) "js" "process.exit(1)" 10 ∅).
  vm_compute. reflexivity.
Defined.

(** ** C5: the wall-clock timeout *)



(** ** C6: exit status and success *)




(** ** C7: resource limits of the child *)



(** ** C8: interpreter not found *)

(** C8, as stated, fails: the source file is written before the
    interpreter is looked up, so on a host without Python whose disk is
    full the result is the error of the write, not "interpreter not
    found". *)
Lemma write_error_hides_missing_interpreter :
  interpreter_missing
    (Demo.host true Demo.no_path (Some "k3x9") (Some "No space left on device")
       None Demo.prints_two) Python /\
  outcome (run_code
             (Demo.host true Demo.no_path (Some "k3x9")
                (Some "No space left on device") None Demo.prints_two)
             "python" "print(1+1)" 10 ∅)
    <> Ret (error_result (not_found_message Python)).
Proof.
  split; [ split; reflexivity | ].
  intros Heq.
  apply (f_equal (fun o => match o with Ret d => d !! "error" | Raise _ => None end))
    in Heq.
  vm_compute in Heq. discriminate Heq.
Qed.

(** C8 (amended): for a tag of a supported language whose interpreter is
    not on the search path, and whenever the workspace directory was
    created and the source file written (and, for Shell, made executable)
    without error, [run_code] returns the interpreter-not-found result of
    that language; no process is spawned, and the message is not an
    unsupported-language message. *)
Theorem missing_interpreter h language code t fs sfx f :
  fresh_name h = Some sfx ->
  path_join (gettempdir h) ("ai_run_" +:+ sfx) ∉ fs ->
  lower (or_str language "python") ∈ aliases f ->
  write_error h
    (path_join (path_join (gettempdir h) ("ai_run_" +:+ sfx)) (source_file f))
    code = None ->
  (f = Shell ->
   chmod_error h
     (path_join (path_join (gettempdir h) ("ai_run_" +:+ sfx)) (source_file f))
     = None) ->
  interpreter_missing h f ->
  outcome (run_code h language code t fs) =
    Ret (error_result (not_found_message f)) /\
  spawns (events (run_code h language code t fs)) = [] /\
  (forall tag, not_found_message f <> "Unsupported language: " +:+ tag).
Proof.
  intros Hfresh Hnew Hal Hw Hch Hmiss.
  assert (Hdistinct : forall tag,
            not_found_message f <> "Unsupported language: " +:+ tag)
    by (intros tag; destruct f; discriminate).
  destruct f; try specialize (Hch eq_refl);
    cbn [aliases source_file interpreter_missing] in *;
    unfold resolvable in Hmiss;
    run_cases; simplify_eq; try contradiction;
    repeat match goal with H : decide _ = _ |- _ => clear H end;
    try (elem_inv; congruence);
    try match goal with
    | H : negb (truthy_opt (or_opt _ _)) = false |- _ =>
        rewrite or_opt_falsy in H by tauto; discriminate H
    | H : negb (truthy_opt _) = false |- _ =>
        rewrite Hmiss in H; discriminate H
    end;
    (split; [ reflexivity | split; [ reflexivity | assumption ] ]).
Qed.

Lemma missing_interpreter_witness :
  outcome (run_code (Demo.host true Demo.no_path (Some "k3x9") None None
                       Demo.prints_two) "NODE" "console.log(2)" 10 ∅) =
    Ret (error_result "node not found on server.") /\
  spawns (events (run_code (Demo.host true Demo.no_path (Some "k3x9") None None
                              Demo.prints_two) "NODE" "console.log(2)" 10 ∅)) = [] /\
  (forall tag, "node not found on server." <> "Unsupported language: " +:+ tag).
Proof.
  apply (missing_interpreter
           (Demo.host true Demo.no_path (Some "k3x9") None None Demo.prints_two)
           "NODE" "console.log(2)" 10 ∅ "k3x9" JavaScript).
  - reflexivity.
  - apply not_elem_of_empty.
  - apply (bool_decide_unpack _). vm_compute. exact I.
  - reflexivity.
  - discriminate.
  - reflexivity.
Defined.

(** ** C9: a result for every call *)

(** C9 (the code departs from its docstring): for the tag "ruby" the
    returned dictionary has the keys [success] and [error] only; the keys
    [stdout], [stderr], [exit_code] and [timed_out], which the docstring
    of [run_code] lists, are absent. *)
Lemma error_result_lacks_documented_keys :
  exists d,
    outcome (run_code (Demo.linux Demo.prints_two) "ruby" "puts 1" 10 ∅) = Ret d /\
    has_documented_keys d = false /\
    d !! "stdout" = None /\ d !! "stderr" = None /\
    d !! "exit_code" = None /\ d !! "timed_out" = None.
Proof.
  exists (error_result "Unsupported language: ruby").
  split; [ vm_compute; reflexivity | ].
  repeat split.
Qed.

(** The same holds of every error result. *)
Lemma error_results_lack_documented_keys msg :
  has_documented_keys (error_result msg) = false.
Proof. reflexivity. Qed.

(** [tempfile.mkdtemp] is called outside the [try] statement: when it
    raises, [run_code] raises. *)
Lemma mkdtemp_failure_propagates :
  outcome (run_code (Demo.host true Demo.usr_bin None None None Demo.prints_two)
             "python" "print(1+1)" 10 ∅) =
  Raise (Exception "No usable temporary directory found").
Proof. reflexivity. Qed.

(** X16: once the workspace exists, [run_code] returns a dictionary with
    a boolean [success] key, whatever fails afterwards. *)
Lemma returns_once_workspace_exists h language code t fs sfx :
  fresh_name h = Some sfx ->
  path_join (gettempdir h) ("ai_run_" +:+ sfx) ∉ fs ->
  exists d b,
    outcome (run_code h language code t fs) = Ret d /\
    d !! "success" = Some (VBool b).
Proof.
  intros Hfresh Hnew.
  run_cases; simplify_eq; try contradiction;
    eexists; eexists; (split; [ reflexivity | reflexivity ]).
Qed.

(** X17: a failure of the cleanup never replaces the result: the outcome
    does not depend on what [shutil.rmtree] does. *)
Lemma cleanup_failure_suppressed h language code t fs f :
  outcome (run_code (with_rmtree_error f h) language code t fs) =
  outcome (run_code h language code t fs).
Proof. rewrite !run_code_outcome. reflexivity. Qed.

(** ** C10: the placeholder of the timeout result *)



(** * Further properties of [run_code] *)

(** ** The language tag *)

Lemma lower_char_idem c : lower_char (lower_char c) = lower_char c.
Proof. destruct c as [[] [] [] [] [] [] [] []]; reflexivity. Qed.

Lemma lower_idem s : lower (lower s) = lower s.
Proof. induction s as [|c s IH]; simpl; [reflexivity|]. now rewrite lower_char_idem, IH. Qed.

Lemma truthy_lower s : truthy (lower s) = truthy s.
Proof. now destruct s. Qed.

(** X1: the tag is matched case-insensitively: a call with a tag and the
    call with its lower-case form are the same run, with the same result,
    effects and final directories. *)
Theorem run_code_case_insensitive h language code t fs :
  run_code h language code t fs = run_code h (lower language) code t fs.
Proof.
  unfold run_code.
  replace (lower (or_str (lower language) "python"))
    with (lower (or_str language "python")); [reflexivity|].
  unfold or_str. rewrite truthy_lower.
  destruct (truthy language); [ now rewrite lower_idem | reflexivity ].
Qed.

(** All aliases of a family are dispatched alike. *)
Lemma dispatch_family h f lang code d :
  lang ∈ aliases f ->
  dispatch h lang code d = dispatch h (canonical f) code d.
Proof.
  intros Hal. unfold dispatch.
  destruct f; cbn [aliases canonical] in *;
    repeat match goal with
    | |- context [decide (?x ∈ ?l)] => destruct (decide (x ∈ l))
    end;
    try reflexivity; exfalso; elem_inv; try contradiction;
    match goal with
    | H : _ ∉ _ |- _ => apply H; solve [elem_here]
    end.
Qed.

(** X2: the aliases of one language are interchangeable: two tags that
    name the same family give the same run. *)
Theorem run_code_alias_independent h f l1 l2 code t fs :
  lower (or_str l1 "python") ∈ aliases f ->
  lower (or_str l2 "python") ∈ aliases f ->
  run_code h l1 code t fs = run_code h l2 code t fs.
Proof.
  intros H1 H2. unfold run_code, mbind, M_bind, bind.
  destruct (mkdtemp h "ai_run_" fs) as [[d|e] fs1 ev1]; [|reflexivity].
  unfold try_body.
  now rewrite (dispatch_family h f _ code d H1), (dispatch_family h f _ code d H2).
Qed.

Lemma run_code_alias_independent_witness :
  run_code (Demo.linux Demo.prints_two) "JS" "console.log(2)" 10 ∅ =
  run_code (Demo.linux Demo.prints_two) "javascript" "console.log(2)" 10 ∅.
Proof.
  apply (run_code_alias_independent (Demo.linux Demo.prints_two) JavaScript).
  - apply (bool_decide_unpack _). vm_compute. exact I.
  - apply (bool_decide_unpack _). vm_compute. exact I.
Defined.

(** ** What is written, and where *)

(** X3: the only file [run_code] writes is the source file of the
    language, under its fixed name inside the workspace directory of this
    call, and its content is the snippet, unchanged. *)
Theorem written_file_is_the_snippet h language code t fs p txt :
  EvWrite p txt ∈ events (run_code h language code t fs) ->
  txt = code /\
  exists d f,
    p = path_join d (source_file f) /\
    EvMkdtemp d ∈ events (run_code h language code t fs) /\
    lower (or_str language "python") ∈ aliases f.
Proof.
  run_cases; intros Hin; elem_inv; (split; [reflexivity|]); eexists;
    first [ exists Python; split; [reflexivity|]; split; [elem_here | assumption]
          | exists JavaScript; split; [reflexivity|]; split; [elem_here | assumption]
          | exists Shell; split; [reflexivity|]; split; [elem_here | assumption] ].
Qed.

Lemma written_file_is_the_snippet_witness :
  "print(1+1)" = "print(1+1)" /\
  exists d f,
    "/tmp/ai_run_k3x9/main.py" = path_join d (source_file f) /\
    EvMkdtemp d ∈ events (run_code (Demo.linux Demo.prints_two) "py" "print(1+1)" 10 ∅) /\
    lower (or_str "py" "python") ∈ aliases f.
Proof.
  apply (written_file_is_the_snippet (Demo.linux Demo.prints_two) "py" "print(1+1)" 10 ∅).
  vm_compute. apply list_elem_of_further. apply list_elem_of_here.
Defined.

(** X4: the only permission change is on the shell script: whenever
    [run_code] calls [os.chmod], the language is Shell, the file is
    [run.sh] in the workspace, the mode is [0o700], and the file had been
    written before. *)
Theorem chmod_only_on_shell_script h language code t fs p mode :
  EvChmod p mode ∈ events (run_code h language code t fs) ->
  mode = 448 /\
  lower (or_str language "python") ∈ aliases Shell /\
  EvWrite p code ∈ events (run_code h language code t fs) /\
  exists d, p = path_join d "run.sh" /\
            EvMkdtemp d ∈ events (run_code h language code t fs).
Proof.
  run_cases; intros Hin; elem_inv;
    (split; [reflexivity|]); (split; [assumption|]); (split; [elem_here|]);
    eexists; (split; [reflexivity | elem_here]).
Qed.

Lemma chmod_only_on_shell_script_witness :
  448 = 448 /\
  lower (or_str "SH" "python") ∈ aliases Shell /\
  EvWrite "/tmp/ai_run_k3x9/run.sh" "echo hi"
    ∈ events (run_code (Demo.linux Demo.prints_two) "SH" "echo hi" 10 ∅) /\
  exists d, "/tmp/ai_run_k3x9/run.sh" = path_join d "run.sh" /\
            EvMkdtemp d ∈ events (run_code (Demo.linux Demo.prints_two) "SH" "echo hi" 10 ∅).
Proof.
  apply (chmod_only_on_shell_script (Demo.linux Demo.prints_two) "SH" "echo hi" 10 ∅).
  vm_compute. do 2 apply list_elem_of_further. apply list_elem_of_here.
Defined.

(** ** The child process *)

(** X5: a call makes at most one directory, forks at most one child and
    starts at most one program. *)
Theorem at_most_one_child h language code t fs :
  (length (created (events (run_code h language code t fs))) <= 1)%nat /\
  (length (List.filter is_fork (events (run_code h language code t fs))) <= 1)%nat /\
  (length (List.filter is_exec (events (run_code h language code t fs))) <= 1)%nat.
Proof.
  run_cases; cbn; lia.
Qed.

(** X6: the command line of the child consists of the interpreter found
    on the search path (for Python [python3] before [python], for Shell
    [bash] before [sh]) and the fixed file name; the child is given the
    timeout of the call and runs in the workspace directory of the call,
    where the source file has been written. *)
Theorem child_command_line h language code t fs cmd cwd t' :
  EvFork cmd cwd t' ∈ events (run_code h language code t fs) ->
  t' = t /\
  EvMkdtemp cwd ∈ events (run_code h language code t fs) /\
  exists f,
    lower (or_str language "python") ∈ aliases f /\
    truthy_opt (interpreter h f) = true /\
    cmd = command_line f (default "" (interpreter h f)) /\
    EvWrite (path_join cwd (source_file f)) code
      ∈ events (run_code h language code t fs).
Proof.
  run_cases; intros Hin; elem_inv;
    (split; [reflexivity|]); (split; [elem_here|]);
    match goal with
    | H : negb (truthy_opt _) = false |- _ => apply negb_false_iff in H
    end;
    first [ exists Python; split; [assumption|]; split; [assumption|];
            split; [reflexivity | elem_here]
          | exists JavaScript; split; [assumption|]; split; [assumption|];
            split; [reflexivity | elem_here]
          | exists Shell; split; [assumption|]; split; [assumption|];
            split; [reflexivity | elem_here] ].
Qed.

Lemma child_command_line_witness :
  10 = 10 /\
  EvMkdtemp Demo.workspace
    ∈ events (run_code (Demo.linux Demo.prints_two) "" "print(1+1)" 10 ∅) /\
  exists f,
    lower (or_str "" "python") ∈ aliases f /\
    truthy_opt (interpreter (Demo.linux Demo.prints_two) f) = true /\
    ["/usr/bin/python3"; "-u"; "main.py"] =
      command_line f (default "" (interpreter (Demo.linux Demo.prints_two) f)) /\
    EvWrite (path_join Demo.workspace (source_file f)) "print(1+1)"
      ∈ events (run_code (Demo.linux Demo.prints_two) "" "print(1+1)" 10 ∅).
Proof.
  apply (child_command_line (Demo.linux Demo.prints_two) "" "print(1+1)" 10 ∅).
  vm_compute. do 2 apply list_elem_of_further. apply list_elem_of_here.
Defined.

(** [_set_limits] fails on a POSIX host without the privilege whose hard
    address-space limit is below 256 MiB. *)
Lemma _set_limits_refused h cur n :
  POSIX h = true -> privileged h = false ->
  snd (cur RLIMIT_AS) = Lim n -> n < 268435456 ->
  exists e, _set_limits h cur = inl e.
Proof.
  intros Hp Hpriv Has Hn. unfold _set_limits. rewrite Hp. cbn [negb].
  destruct (setrlimit _ RLIMIT_CPU _ cur) as [e|l1] eqn:E1; [eauto|].
  apply setrlimit_inr in E1. subst l1.
  unfold setrlimit at 1. rewrite Hpriv.
  rewrite set_limit_other by discriminate. rewrite Has.
  cbn [fst snd rlim_leb negb andb].
  destruct (Z.leb_spec (256 * 1024 * 1024) n); [lia|]. cbn. eauto.
Qed.

(** X7: when [_set_limits] fails in the child, the snippet is never
    executed: no program is started, and a call that got as far as forking
    returns the error result of the failed [preexec_fn]. *)
Theorem failed_limits_block_the_child h language code t fs e :
  POSIX h = true ->
  _set_limits h (inherited_limits h) = inl e ->
  List.filter is_exec (events (run_code h language code t fs)) = [] /\
  (forall cmd cwd t',
     EvFork cmd cwd t' ∈ events (run_code h language code t fs) ->
     outcome (run_code h language code t fs) =
       Ret (error_result "Execution error: Exception occurred in preexec_fn.")).
Proof.
  intros Hp Hfail.
  run_cases; try congruence;
    (split; [reflexivity|]); intros cmd cwd t' Hin; elem_inv; reflexivity.
Qed.

Lemma failed_limits_block_the_child_witness :
  List.filter is_exec
    (events (run_code
       (with_limits (set_limit RLIMIT_AS (Lim 1000, Lim 1000) Demo.unlimited)
          (Demo.linux Demo.prints_two)) "python" "print(1+1)" 10 ∅)) = [] /\
  (forall cmd cwd t',
     EvFork cmd cwd t' ∈ events (run_code
       (with_limits (set_limit RLIMIT_AS (Lim 1000, Lim 1000) Demo.unlimited)
          (Demo.linux Demo.prints_two)) "python" "print(1+1)" 10 ∅) ->
     outcome (run_code
       (with_limits (set_limit RLIMIT_AS (Lim 1000, Lim 1000) Demo.unlimited)
          (Demo.linux Demo.prints_two)) "python" "print(1+1)" 10 ∅) =
       Ret (error_result "Execution error: Exception occurred in preexec_fn.")).
Proof.
  apply (failed_limits_block_the_child
           (with_limits (set_limit RLIMIT_AS (Lim 1000, Lim 1000) Demo.unlimited)
              (Demo.linux Demo.prints_two)) "python" "print(1+1)" 10 ∅
           (Exception "not allowed to raise maximum limit")).
  - reflexivity.
  - reflexivity.
Defined.

(** ** Failures *)

(** X8: [run_code] raises only when the workspace cannot be created, and
    then nothing has happened: no effect was performed and the
    directories are as before. *)
Theorem raises_only_without_workspace h language code t fs e :
  outcome (run_code h language code t fs) = Raise e ->
  events (run_code h language code t fs) = [] /\
  dirs (run_code h language code t fs) = fs /\
  (fresh_name h = None \/
   exists sfx, fresh_name h = Some sfx /\
               path_join (gettempdir h) ("ai_run_" +:+ sfx) ∈ fs).
Proof.
  run_cases; intros Hraise; try discriminate Hraise;
    (split; [reflexivity|]); (split; [reflexivity|]); eauto.
Qed.

Lemma raises_only_without_workspace_witness :
  events (run_code (Demo.linux Demo.prints_two) "python" "print(1+1)" 10
            {[Demo.workspace]}) = [] /\
  dirs (run_code (Demo.linux Demo.prints_two) "python" "print(1+1)" 10
          {[Demo.workspace]}) = {[Demo.workspace]} /\
  (fresh_name (Demo.linux Demo.prints_two) = None \/
   exists sfx, fresh_name (Demo.linux Demo.prints_two) = Some sfx /\
               path_join (gettempdir (Demo.linux Demo.prints_two))
                 ("ai_run_" +:+ sfx) ∈ ({[Demo.workspace]} : gset string)).
Proof.
  apply (raises_only_without_workspace (Demo.linux Demo.prints_two) "python"
           "print(1+1)" 10 {[Demo.workspace]}
           (Exception "No usable temporary directory name found")).
  vm_compute. reflexivity.
Defined.

(** X9: an error while the source file is written is reported as an
    [Execution error] result carrying the text of the exception; no
    process is spawned, and the only effects are the creation of the
    workspace and its removal. *)
Theorem write_failure_is_reported h language code t fs sfx f msg :
  fresh_name h = Some sfx ->
  path_join (gettempdir h) ("ai_run_" +:+ sfx) ∉ fs ->
  lower (or_str language "python") ∈ aliases f ->
  write_error h
    (path_join (path_join (gettempdir h) ("ai_run_" +:+ sfx)) (source_file f))
    code = Some msg ->
  outcome (run_code h language code t fs) =
    Ret (error_result ("Execution error: " +:+ msg)) /\
  spawns (events (run_code h language code t fs)) = [] /\
  (forall ev, ev ∈ events (run_code h language code t fs) ->
     ev = EvMkdtemp (path_join (gettempdir h) ("ai_run_" +:+ sfx)) \/
     ev = EvRmtree (path_join (gettempdir h) ("ai_run_" +:+ sfx))).
Proof.
  intros Hfresh Hnew Hal Hw.
  destruct f; cbn [aliases source_file] in *;
    run_cases; simplify_eq; try contradiction;
    repeat match goal with H : decide _ = _ |- _ => clear H end;
    try (elem_inv; congruence);
    (split; [reflexivity|]); (split; [reflexivity|]);
    intros ev Hin; elem_inv; auto.
Qed.

Lemma write_failure_is_reported_witness :
  outcome (run_code (Demo.host true Demo.usr_bin (Some "k3x9")
                       (Some "No space left on device") None Demo.prints_two)
             "bash" "echo hi" 10 ∅) =
    Ret (error_result "Execution error: No space left on device") /\
  spawns (events (run_code (Demo.host true Demo.usr_bin (Some "k3x9")
                       (Some "No space left on device") None Demo.prints_two)
             "bash" "echo hi" 10 ∅)) = [] /\
  (forall ev, ev ∈ events (run_code (Demo.host true Demo.usr_bin (Some "k3x9")
                       (Some "No space left on device") None Demo.prints_two)
             "bash" "echo hi" 10 ∅) ->
     ev = EvMkdtemp "/tmp/ai_run_k3x9" \/ ev = EvRmtree "/tmp/ai_run_k3x9").
Proof.
  apply (write_failure_is_reported
           (Demo.host true Demo.usr_bin (Some "k3x9")
              (Some "No space left on device") None Demo.prints_two)
           "bash" "echo hi" 10 ∅ "k3x9" Shell "No space left on device").
  - reflexivity.
  - apply not_elem_of_empty.
  - apply (bool_decide_unpack _). vm_compute. exact I.
  - reflexivity.
Defined.

(** ** Output and cleanup *)



(** X11: the removal of the workspace is the last thing a call does:
    when [shutil.rmtree] ran to its end, it is the final effect, it
    removes the directory this call created, and it happens once. *)
Theorem rmtree_is_last h language code t fs d :
  EvRmtree d ∈ events (run_code h language code t fs) ->
  last (events (run_code h language code t fs)) = Some (EvRmtree d) /\
  created (events (run_code h language code t fs)) = [d] /\
  length (List.filter (fun ev => match ev with EvRmtree _ => true | _ => false end)
            (events (run_code h language code t fs))) = 1%nat.
Proof.
  run_cases; intros Hin; elem_inv; repeat split.
Qed.

Lemma rmtree_is_last_witness :
  last (events (run_code (Demo.linux Demo.hangs) "bash" "sleep 30" 2 ∅))
    = Some (EvRmtree Demo.workspace) /\
  created (events (run_code (Demo.linux Demo.hangs) "bash" "sleep 30" 2 ∅))
    = [Demo.workspace] /\
  length (List.filter (fun ev => match ev with EvRmtree _ => true | _ => false end)
            (events (run_code (Demo.linux Demo.hangs) "bash" "sleep 30" 2 ∅))) = 1%nat.
Proof.
  apply (rmtree_is_last (Demo.linux Demo.hangs) "bash" "sleep 30" 2 ∅).
  vm_compute. do 6 apply list_elem_of_further. apply list_elem_of_here.
Defined.

(** ** Pipes that stay open *)



(** * [extract_first_code_block] *)

(** ** Strings *)

Lemma str_app_cons (c : ascii) (a b : string) :
  String c a +:+ b = String c (a +:+ b).
Proof. reflexivity. Qed.

Lemma str_app_nil_l (b : string) : "" +:+ b = b.
Proof. reflexivity. Qed.

(** Normal form of concatenations with an explicit head. *)
Ltac str_norm := rewrite ?str_app_cons, ?str_app_nil_l in *.

Lemma str_app_assoc (a b c : string) : (a +:+ b) +:+ c = a +:+ (b +:+ c).
Proof. induction a as [|x a IH]; str_norm; [reflexivity | now rewrite IH]. Qed.

Lemma str_app_nil_r (a : string) : a +:+ "" = a.
Proof. induction a as [|x a IH]; str_norm; [reflexivity | now rewrite IH]. Qed.

Lemma str_length_app (a b : string) :
  String.length (a +:+ b) = (String.length a + String.length b)%nat.
Proof.
  induction a as [|x a IH]; str_norm; cbn [String.length Nat.add];
    [reflexivity | now rewrite IH].
Qed.

Lemma substring_0_app (a r : string) : substring 0 (String.length a) (a +:+ r) = a.
Proof.
  induction a as [|x a IH]; str_norm; cbn [String.length substring];
    [now destruct r | now rewrite IH].
Qed.

Lemma consumed_app (a r : string) : Re.consumed (a +:+ r) r = a.
Proof.
  unfold Re.consumed. rewrite str_length_app.
  replace (String.length a + String.length r - String.length r)%nat
    with (String.length a) by lia.
  apply substring_0_app.
Qed.

Lemma strip_prefix_app (p s : string) : Re.strip_prefix p (p +:+ s) = Some s.
Proof.
  induction p as [|a p IH]; str_norm; cbn [Re.strip_prefix]; [reflexivity|].
  now rewrite Ascii.eqb_refl.
Qed.

Lemma strip_prefix_inv (p s s' : string) :
  Re.strip_prefix p s = Some s' -> s = p +:+ s'.
Proof.
  revert s. induction p as [|a p IH]; intros s; cbn [Re.strip_prefix].
  - now intros [= ->].
  - destruct s as [|b s]; [discriminate|].
    destruct (Ascii.eqb_spec a b) as [->|]; [|discriminate].
    intros H. now rewrite (IH _ H).
Qed.

(** A prefix no longer than [w] leaves what follows [w] in place. *)
Lemma strip_prefix_keeps_tail (p w tail x : string) :
  (String.length p <= String.length w)%nat ->
  Re.strip_prefix p (w +:+ tail) = Some x ->
  exists u, x = u +:+ tail.
Proof.
  revert w. induction p as [|a p IH]; intros w Hlen; cbn [Re.strip_prefix].
  - intros [= <-]. now exists w.
  - destruct w as [|b w]; cbn [String.length] in Hlen; [lia|].
    str_norm. destruct (Ascii.eqb a b); [|discriminate].
    apply IH. lia.
Qed.

(** ** The repetitions *)

Section Repetitions.

Context {A : Type}.
Implicit Types (k : string -> option A) (x : A).

Lemma lazy_any_inv s k x :
  Re.lazy_any s k = Some x ->
  exists a rest,
    s = a +:+ rest /\ k rest = Some x /\
    (forall a1 b, a = a1 +:+ b -> b <> "" -> k (b +:+ rest) = None).
Proof.
  induction s as [|c s IH]; cbn [Re.lazy_any].
  - destruct (k "") eqn:Hk; [|discriminate].
    intros [= ->]. exists "", "". repeat split; [assumption|].
    intros [|] b Hab Hb; str_norm; [congruence | discriminate].
  - destruct (k (String c s)) eqn:Hk.
    + intros [= ->]. exists "", (String c s). repeat split; [assumption|].
      intros [|] b Hab Hb; str_norm; [congruence | discriminate].
    + intros H. destruct (IH H) as (a & rest & -> & Hrest & Hmin).
      exists (String c a), rest. repeat split; [assumption|].
      intros [|c1 a1] b Hab Hb; str_norm.
      * subst b. str_norm. exact Hk.
      * injection Hab as _ Hab. now apply (Hmin a1).
Qed.

Lemma lazy_any_here s k x : k s = Some x -> Re.lazy_any s k = Some x.
Proof. intros Hk. destruct s; cbn [Re.lazy_any]; now rewrite Hk. Qed.

Lemma lazy_any_first a rest k x :
  (forall a1 b, a = a1 +:+ b -> b <> "" -> k (b +:+ rest) = None) ->
  k rest = Some x ->
  Re.lazy_any (a +:+ rest) k = Some x.
Proof.
  intros Hmin Hk. induction a as [|c a IH]; str_norm.
  - now apply lazy_any_here.
  - cbn [Re.lazy_any].
    pose proof (Hmin "" (String c a) eq_refl) as H0. str_norm.
    rewrite H0 by discriminate.
    apply IH. intros a1 b -> Hb. now apply (Hmin (String c a1)).
Qed.

Lemma lazy_any_some s k a rest :
  s = a +:+ rest -> is_Some (k rest) -> is_Some (Re.lazy_any s k).
Proof.
  intros -> [x Hx]. induction a as [|c a IH]; str_norm.
  - rewrite (lazy_any_here _ _ _ Hx). eauto.
  - cbn [Re.lazy_any].
    destruct (k (String c (a +:+ rest))); eauto.
Qed.

Lemma plus_set_inv set s k x :
  Re.plus_set set s k = Some x ->
  exists a rest,
    s = a +:+ rest /\ truthy a = true /\ all_chars set a = true /\
    k rest = Some x.
Proof.
  induction s as [|c s IH]; cbn [Re.plus_set]; [discriminate|].
  destruct (set c) eqn:Hc; [|discriminate].
  destruct (Re.plus_set set s k) as [y|] eqn:Hp.
  - intros [= ->]. destruct (IH eq_refl) as (run & rest & -> & _ & Hall & Hk).
    exists (String c run), rest. cbn [all_chars truthy]. now rewrite Hc, Hall.
  - intros Hk. exists (String c ""), s. cbn [all_chars truthy]. now rewrite Hc.
Qed.

(** The longest run is tried first. *)
Lemma plus_set_longest set a rest k x :
  truthy a = true -> all_chars set a = true ->
  (forall c rest', rest = String c rest' -> set c = false) ->
  k rest = Some x ->
  Re.plus_set set (a +:+ rest) k = Some x.
Proof.
  intros Ha Hall Hstop Hk. induction a as [|c a IH]; [discriminate|].
  cbn [all_chars] in Hall. apply andb_true_iff in Hall as [Hc Hall].
  str_norm. cbn [Re.plus_set]. rewrite Hc.
  destruct a as [|c' a].
  - str_norm.
    assert (Re.plus_set set rest k = None) as ->; [|exact Hk].
    destruct rest as [|r rest']; [reflexivity|].
    cbn [Re.plus_set]. now rewrite (Hstop r rest' eq_refl).
  - now rewrite IH.
Qed.

Lemma plus_set_none set s k :
  (forall a rest, s = a +:+ rest -> truthy a = true ->
                  all_chars set a = true -> k rest = None) ->
  Re.plus_set set s k = None.
Proof.
  intros Hk. destruct (Re.plus_set set s k) as [y|] eqn:Hp; [|reflexivity].
  destruct (plus_set_inv _ _ _ _ Hp) as (run & rest & Hs & Ha & Hall & Hx).
  rewrite (Hk run rest Hs Ha Hall) in Hx. discriminate.
Qed.

End Repetitions.

Lemma search_inv r s m :
  Re.search r s = Some m ->
  exists a rest,
    s = a +:+ rest /\
    Re.exec r rest ∅ (fun _ caps => Some caps) = Some m /\
    (forall a1 b, a = a1 +:+ b -> b <> "" ->
       Re.exec r (b +:+ rest) ∅ (fun _ caps => Some caps) = None).
Proof.
  induction s as [|c s IH]; cbn [Re.search].
  - destruct (Re.exec r "" ∅ _) eqn:Hk; [|discriminate].
    intros [= ->]. exists "", "". repeat split; [assumption|].
    intros [|] b Hab Hb; str_norm; [congruence | discriminate].
  - destruct (Re.exec r (String c s) ∅ _) eqn:Hk.
    + intros [= ->]. exists "", (String c s). repeat split; [assumption|].
      intros [|] b Hab Hb; str_norm; [congruence | discriminate].
    + intros H. destruct (IH H) as (a & rest & -> & Hrest & Hmin).
      exists (String c a), rest. repeat split; [assumption|].
      intros [|c1 a1] b Hab Hb; str_norm.
      * subst b. str_norm. exact Hk.
      * injection Hab as _ Hab. now apply (Hmin a1).
Qed.

Lemma search_here r s m :
  Re.exec r s ∅ (fun _ caps => Some caps) = Some m -> Re.search r s = Some m.
Proof. intros Hk. destruct s; cbn [Re.search]; now rewrite Hk. Qed.

Lemma search_first r a rest m :
  (forall a1 b, a = a1 +:+ b -> b <> "" ->
     Re.exec r (b +:+ rest) ∅ (fun _ caps => Some caps) = None) ->
  Re.exec r rest ∅ (fun _ caps => Some caps) = Some m ->
  Re.search r (a +:+ rest) = Some m.
Proof.
  intros Hmin Hk. induction a as [|c a IH]; str_norm.
  - now apply search_here.
  - cbn [Re.search].
    pose proof (Hmin "" (String c a) eq_refl) as H0. str_norm.
    rewrite H0 by discriminate.
    apply IH. intros a1 b -> Hb. now apply (Hmin (String c a1)).
Qed.

Lemma search_none r s :
  (forall a rest, s = a +:+ rest ->
     Re.exec r rest ∅ (fun _ caps => Some caps) = None) ->
  Re.search r s = None.
Proof.
  intros Hk. destruct (Re.search r s) as [m|] eqn:Hs; [|reflexivity].
  destruct (search_inv _ _ _ Hs) as (pre & rest & Heq & Hx & _).
  rewrite (Hk pre rest Heq) in Hx. discriminate.
Qed.

(** ** Where a fence starts *)

Lemma fence_free_no_start s a b r :
  fence_free s -> s = a +:+ b -> b <> "" ->
  Re.strip_prefix fence (b +:+ fence +:+ r) = None.
Proof.
  intros [Hnf Hnb] -> Hb.
  destruct (Re.strip_prefix fence (b +:+ fence +:+ r)) as [x|] eqn:E;
    [exfalso | reflexivity].
  apply strip_prefix_inv in E. unfold fence in E.
  destruct b as [|c1 [|c2 [|c3 b]]]; [congruence | | | ]; str_norm.
  - injection E as -> _. apply Hnb. now exists a.
  - injection E as -> -> _. apply Hnb. exists (a +:+ "`").
    now rewrite str_app_assoc.
  - injection E as -> -> -> _. apply Hnf. now exists a, b.
Qed.

Lemma no_start_fence_free s r :
  (forall a b, s = a +:+ b -> b <> "" ->
     Re.strip_prefix fence (b +:+ fence +:+ r) = None) ->
  fence_free s.
Proof.
  intros Hno. split.
  - intros (a & b & ->).
    specialize (Hno a (fence +:+ b) eq_refl).
    rewrite str_app_assoc, strip_prefix_app in Hno.
    now discriminate Hno.
  - intros (a & ->).
    specialize (Hno a "`" eq_refl).
    change ("`" +:+ fence +:+ r) with (fence +:+ "`" +:+ r) in Hno.
    rewrite strip_prefix_app in Hno. now discriminate Hno.
Qed.

Lemma label_char_backquote : label_char "`" = false.
Proof. reflexivity. Qed.

Lemma label_char_LF : label_char "010" = false.
Proof. reflexivity. Qed.

(** A label line in front of a fence lies inside the body. *)
Lemma label_line_in_body l body post rest :
  all_chars label_char l = true ->
  body +:+ fence +:+ post = l +:+ LF +:+ rest ->
  exists rest', body = l +:+ LF +:+ rest'.
Proof.
  revert body. induction l as [|c l IH]; intros body Hall Heq.
  - destruct body as [|c0 b]; unfold fence, LF in *; str_norm.
    + discriminate Heq.
    + injection Heq as -> _. now exists b.
  - cbn [all_chars] in Hall. apply andb_true_iff in Hall as [Hc Hall].
    destruct body as [|c0 b]; unfold fence in *; str_norm.
    + injection Heq as <- _. cbv in Hc. discriminate Hc.
    + injection Heq as -> Heq.
      destruct (IH b Hall Heq) as [rest' ->]. now exists rest'.
Qed.

(** ** The match of [CODE_FENCE_RE] at one position *)

Lemma exec_code_fence s :
  Re.exec CODE_FENCE_RE s ∅ (fun _ caps => Some caps) =
  match Re.strip_prefix "```" s with
  | Some s1 =>
      match Re.plus_set label_char s1
              (fun s' =>
                 match Re.strip_prefix LF s' with
                 | Some s2 =>
                     Re.lazy_any s2
                       (closing s2 (<[1%nat := Re.consumed s1 s']> ∅))
                 | None => None
                 end) with
      | Some m => Some m
      | None => Re.lazy_any s1 (closing s1 ∅)
      end
  | None => None
  end.
Proof. reflexivity. Qed.

Lemma closing_at_fence body post s2 caps :
  s2 = body +:+ fence +:+ post ->
  fence_free body ->
  Re.lazy_any s2 (closing s2 caps) = Some (<[2%nat := body]> caps).
Proof.
  intros -> Hfree. apply lazy_any_first.
  - intros a b Hab Hb. unfold closing.
    change "```" with fence.
    now rewrite (fence_free_no_start body a b post Hfree Hab Hb).
  - unfold closing. change "```" with fence. rewrite strip_prefix_app.
    now rewrite consumed_app.
Qed.

Lemma closing_inv s2 caps m :
  Re.lazy_any s2 (closing s2 caps) = Some m ->
  exists code post,
    s2 = code +:+ fence +:+ post /\
    m = <[2%nat := code]> caps /\
    fence_free code.
Proof.
  intros H. destruct (lazy_any_inv _ _ _ H) as (code & rest & Hs2 & Hk & Hmin).
  unfold closing in Hk.
  destruct (Re.strip_prefix "```" rest) as [post|] eqn:Hp; [|discriminate].
  apply strip_prefix_inv in Hp. subst rest. injection Hk as <-.
  exists code, post. rewrite Hs2 at 1. split; [reflexivity|].
  split.
  - now rewrite Hs2, consumed_app.
  - apply (no_start_fence_free code post). intros a b Hab Hb.
    specialize (Hmin a b Hab Hb). unfold closing in Hmin.
    change "```" with fence in Hmin.
    now destruct (Re.strip_prefix fence (b +:+ fence +:+ post)).
Qed.

(** What a match at the start of [s] looks like. *)
Lemma exec_code_fence_inv s m :
  Re.exec CODE_FENCE_RE s ∅ (fun _ caps => Some caps) = Some m ->
  exists lang code post,
    s = fence +:+ label_text lang +:+ code +:+ fence +:+ post /\
    or_opt (group m 1) None = lang /\
    group m 2 = Some code /\
    fence_free code /\
    (forall l, lang = Some l -> is_label l = true).
Proof.
  rewrite exec_code_fence.
  destruct (Re.strip_prefix "```" s) as [s1|] eqn:Hs; [|discriminate].
  apply strip_prefix_inv in Hs. subst s.
  destruct (Re.plus_set label_char s1 _) as [m'|] eqn:Hplus.
  - intros [= ->].
    destruct (plus_set_inv _ _ _ _ Hplus) as (l & rest & Hs1 & Hl & Hall & Hk).
    destruct (Re.strip_prefix LF rest) as [s2|] eqn:Hlf; [|discriminate].
    apply strip_prefix_inv in Hlf. subst rest.
    destruct (closing_inv _ _ _ Hk) as (code & post & -> & -> & Hfree).
    exists (Some l), code, post. cbn [label_text].
    rewrite Hs1, consumed_app. unfold group.
    rewrite lookup_insert_ne, lookup_insert_eq, lookup_insert_eq by discriminate.
    unfold or_opt. cbn [truthy_opt]. rewrite Hl.
    split; [ now rewrite !str_app_assoc | ].
    split; [ reflexivity | ]. split; [ reflexivity | ].
    split; [ exact Hfree | ].
    intros l' [= <-]. unfold is_label. now rewrite Hl, Hall.
  - intros Hk.
    destruct (closing_inv _ _ _ Hk) as (code & post & -> & -> & Hfree).
    exists None, code, post. cbn [label_text]. unfold group.
    rewrite lookup_insert_ne, lookup_empty, lookup_insert_eq by discriminate.
    split; [ reflexivity | ]. split; [ reflexivity | ].
    split; [ reflexivity | ]. split; [ exact Hfree | discriminate ].
Qed.

(** When the label group takes no part in a match, the body does not
    start with a label line: the group is skipped only where it cannot
    match. *)
Lemma exec_code_fence_unlabelled s m code :
  Re.exec CODE_FENCE_RE s ∅ (fun _ caps => Some caps) = Some m ->
  or_opt (group m 1) None = None ->
  group m 2 = Some code ->
  unlabelled code.
Proof.
  rewrite exec_code_fence.
  destruct (Re.strip_prefix "```" s) as [s1|] eqn:Hs; [|discriminate].
  destruct (Re.plus_set label_char s1 _) as [m'|] eqn:Hplus.
  - intros [= ->].
    destruct (plus_set_inv _ _ _ _ Hplus) as (l & rest & Hs1 & Hl & Hall & Hk).
    destruct (Re.strip_prefix LF rest) as [s2|] eqn:Hlf; [|discriminate].
    destruct (closing_inv _ _ _ Hk) as (code' & post & _ & -> & _).
    unfold group.
    rewrite lookup_insert_ne, lookup_insert_eq by discriminate.
    rewrite Hs1, consumed_app. unfold or_opt. cbn [truthy_opt]. rewrite Hl.
    discriminate.
  - intros Hk _.
    destruct (closing_inv _ _ _ Hk) as (code' & post & Hs1 & -> & Hfree).
    unfold group. rewrite lookup_insert_eq. intros [= ->].
    intros l rest Heq.
    destruct (is_label l) eqn:Hlabel; [exfalso|reflexivity].
    unfold is_label in Hlabel. apply andb_true_iff in Hlabel as [Hne Hall].
    assert (Hrest : fence_free rest).
    { destruct Hfree as [Hnf Hnb]. split.
      - intros (a & c & ->). apply Hnf. exists (l +:+ LF +:+ a), c.
        rewrite Heq. now rewrite !str_app_assoc.
      - intros (a & ->). apply Hnb. exists (l +:+ LF +:+ a).
        rewrite Heq. now rewrite !str_app_assoc. }
    rewrite Hs1, Heq, !str_app_assoc in Hplus.
    rewrite (plus_set_longest label_char l _ _
               (<[2%nat := rest]> (<[1%nat := l]> ∅))) in Hplus;
      try assumption; [ discriminate | | ].
    + intros c rest' Hc. unfold LF in Hc. str_norm.
      injection Hc as <- _. reflexivity.
    + rewrite strip_prefix_app.
      rewrite <- !str_app_assoc, (str_app_assoc l LF), !str_app_assoc.
      rewrite consumed_app.
      now apply (closing_at_fence rest post).
Qed.

(** A fence followed, three characters or more later, by a fence starts a
    match. *)
Lemma exec_code_fence_some s u v :
  s = fence +:+ u +:+ fence +:+ v ->
  is_Some (Re.exec CODE_FENCE_RE s ∅ (fun _ caps => Some caps)).
Proof.
  intros ->. rewrite exec_code_fence. change "```" with fence.
  rewrite strip_prefix_app.
  destruct (Re.plus_set label_char _ _); [eauto|].
  apply (lazy_any_some _ _ u (fence +:+ v) eq_refl).
  unfold closing. change "```" with fence. rewrite strip_prefix_app. eauto.
Qed.

Lemma search_none_inv r s a rest :
  Re.search r s = None -> s = a +:+ rest ->
  Re.exec r rest ∅ (fun _ caps => Some caps) = None.
Proof.
  intros Hs ->. induction a as [|c a IH]; str_norm.
  - destruct rest; cbn [Re.search] in Hs;
      now destruct (Re.exec r _ ∅ _).
  - cbn [Re.search] in Hs.
    destruct (Re.exec r (String c (a +:+ rest)) ∅ _); [discriminate|].
    now apply IH.
Qed.

(** ** Properties of [extract_first_code_block] *)

Lemma closed_block_found text :
  closed_block text -> is_Some (Re.search CODE_FENCE_RE text).
Proof.
  intros (a & b & c & ->).
  destruct (Re.search CODE_FENCE_RE _) as [m|] eqn:Hs; [eauto|].
  pose proof (search_none_inv _ _ a _ Hs eq_refl) as Hnone.
  destruct (exec_code_fence_some (fence +:+ b +:+ fence +:+ c) b c eq_refl)
    as [m Hm].
  congruence.
Qed.

Lemma found_closed_block text m :
  Re.search CODE_FENCE_RE text = Some m -> closed_block text.
Proof.
  intros Hs. destruct (search_inv _ _ _ Hs) as (pre & rest & -> & Hm & _).
  destruct (exec_code_fence_inv _ _ Hm) as (lang & code & post & -> & _).
  exists pre, (label_text lang +:+ code), post.
  now rewrite !str_app_assoc.
Qed.

Lemma has_fence_complete a b : has_fence (a +:+ fence +:+ b) = true.
Proof.
  induction a as [|c a IH]; str_norm.
  - unfold fence. str_norm. reflexivity.
  - cbn [has_fence]. rewrite IH. now destruct (Re.strip_prefix fence _).
Qed.

Lemma ends_in_backquote_complete a : ends_in_backquote (a +:+ "`") = true.
Proof.
  induction a as [|c a IH]; str_norm; [reflexivity|].
  cbn [ends_in_backquote]. rewrite IH.
  destruct a; str_norm; reflexivity.
Qed.

Lemma fence_freeb_sound s : fence_freeb s = true -> fence_free s.
Proof.
  unfold fence_freeb. intros Hs. apply andb_true_iff in Hs as [Hf Hb].
  split.
  - intros (a & b & ->). now rewrite has_fence_complete in Hf.
  - intros (a & ->). now rewrite ends_in_backquote_complete in Hb.
Qed.

Lemma unlabelled_first_char c body :
  label_char c = false -> unlabelled (String c body).
Proof.
  intros Hc [|c' l] rest Heq; [reflexivity|].
  str_norm. injection Heq as <- _.
  unfold is_label. cbn [all_chars]. rewrite Hc. now rewrite andb_false_r.
Qed.

(** X12: a text without a closed block (an opening fence and, after it,
    a closing one) is returned whole, with no language. *)
Theorem text_without_block_is_returned text :
  ~ closed_block text ->
  extract_first_code_block text = (None, text).
Proof.
  intros Hno. unfold extract_first_code_block.
  destruct (Re.search CODE_FENCE_RE text) as [m|] eqn:Hs; [|reflexivity].
  exfalso. apply Hno. now apply (found_closed_block text m).
Qed.

Lemma text_without_block_is_returned_witness :
  extract_first_code_block ("Use ```print(1) to print") =
    (None, "Use ```print(1) to print").
Proof.
  apply (text_without_block_is_returned "Use ```print(1) to print").
  intros Hb. apply closed_block_found in Hb.
  vm_compute in Hb. now destruct Hb.
Defined.

(** X13: the first block of a text, when it has a label line: for a text
    [pre ```lang LF body ``` post] in which no fence starts inside [pre]
    or [body] and [lang] is a non-empty run of letters, digits,
    underscores, [+] and [-], the result is the label and the body; the
    label line and the fences are left out. *)
Theorem labelled_block_is_extracted pre lang body post :
  fence_free pre -> is_label lang = true -> fence_free body ->
  extract_first_code_block
    (pre +:+ fence +:+ lang +:+ LF +:+ body +:+ fence +:+ post)
  = (Some lang, body).
Proof.
  intros Hpre Hlang Hbody. unfold is_label in Hlang.
  apply andb_true_iff in Hlang as [Hne Hall].
  unfold extract_first_code_block.
  rewrite (search_first CODE_FENCE_RE pre _
             (<[2%nat := body]> (<[1%nat := lang]> ∅))).
  - unfold group.
    rewrite lookup_insert_ne, lookup_insert_eq, lookup_insert_eq by discriminate.
    unfold or_opt. cbn [truthy_opt default]. now rewrite Hne.
  - intros a b Hab Hb. rewrite exec_code_fence. change "```" with fence.
    now rewrite (fence_free_no_start pre a b _ Hpre Hab Hb).
  - rewrite exec_code_fence. change "```" with fence.
    rewrite strip_prefix_app.
    rewrite (plus_set_longest label_char lang _ _
               (<[2%nat := body]> (<[1%nat := lang]> ∅))); try assumption;
      [ reflexivity | | ].
    + intros c rest' Heq. unfold LF in Heq. str_norm.
      injection Heq as <- _. reflexivity.
    + rewrite strip_prefix_app, consumed_app.
      now apply (closing_at_fence body post).
Qed.

Lemma labelled_block_is_extracted_witness :
  extract_first_code_block
    ("Try `this`: " +:+ fence +:+ "c++" +:+ LF +:+ "int main(){}" +:+ fence
       +:+ " and " +:+ fence +:+ "x" +:+ fence)
  = (Some "c++", "int main(){}").
Proof.
  apply (labelled_block_is_extracted "Try `this`: " "c++" "int main(){}"
           (" and " +:+ fence +:+ "x" +:+ fence)).
  - apply fence_freeb_sound. reflexivity.
  - reflexivity.
  - apply fence_freeb_sound. reflexivity.
Defined.

(** X14: the first block of a text, when it has no label line: for a text
    [pre ``` body ``` post] in which no fence starts inside [pre] or
    [body] and [body] does not begin with a label and a line feed, the
    result has no language and its code is all of [body], including a
    line feed that follows the opening fence. *)
Theorem unlabelled_block_is_extracted pre body post :
  fence_free pre -> unlabelled body -> fence_free body ->
  extract_first_code_block (pre +:+ fence +:+ body +:+ fence +:+ post)
  = (None, body).
Proof.
  intros Hpre Hun Hbody.
  unfold extract_first_code_block.
  rewrite (search_first CODE_FENCE_RE pre _ (<[2%nat := body]> ∅)).
  - unfold group.
    now rewrite lookup_insert_ne, lookup_empty, lookup_insert_eq by discriminate.
  - intros a b Hab Hb. rewrite exec_code_fence. change "```" with fence.
    now rewrite (fence_free_no_start pre a b _ Hpre Hab Hb).
  - rewrite exec_code_fence. change "```" with fence.
    rewrite strip_prefix_app.
    rewrite plus_set_none.
    + now apply (closing_at_fence body post).
    + intros l rest Heq Hl Hall.
      destruct (Re.strip_prefix LF rest) as [s2|] eqn:Hlf; [exfalso|reflexivity].
      apply strip_prefix_inv in Hlf. subst rest.
      destruct (label_line_in_body l body post s2 Hall Heq) as [rest' Hbody'].
      specialize (Hun l rest' Hbody'). unfold is_label in Hun.
      rewrite Hl, Hall in Hun. discriminate Hun.
Qed.

Lemma unlabelled_block_is_extracted_witness :
  extract_first_code_block
    ("Run " +:+ fence +:+ (LF +:+ "ls -l" +:+ LF) +:+ fence +:+ " now")
  = (None, LF +:+ "ls -l" +:+ LF).
Proof.
  apply (unlabelled_block_is_extracted "Run " (LF +:+ "ls -l" +:+ LF) " now").
  - apply fence_freeb_sound. reflexivity.
  - apply unlabelled_first_char. reflexivity.
  - apply fence_freeb_sound. reflexivity.
Defined.

(** X15: whenever the text has a closed block, the result is cut out of
    the text: the text is [pre ``` label code ``` post], where the result
    is the language of the label line (if there is one) and [code]; it is
    the first block (no fence starts inside [pre]), it ends at the first
    fence after its start (none starts inside [code]), and a language,
    when returned, is a non-empty run of label characters. *)
Theorem extracted_block_is_first text :
  closed_block text ->
  exists pre lang code post,
    extract_first_code_block text = (lang, code) /\
    text = pre +:+ fence +:+ label_text lang +:+ code +:+ fence +:+ post /\
    fence_free pre /\ fence_free code /\
    (forall l, lang = Some l -> is_label l = true).
Proof.
  intros Hblock.
  destruct (closed_block_found text Hblock) as [m Hs].
  destruct (search_inv _ _ _ Hs) as (pre & rest & -> & Hm & Hmin).
  destruct (exec_code_fence_inv _ _ Hm)
    as (lang & code & post & -> & Hlang & Hcode & Hfree & Hlabel).
  exists pre, lang, code, post.
  unfold extract_first_code_block. rewrite Hs, Hlang, Hcode.
  split; [reflexivity|]. split; [reflexivity|].
  split; [|split; assumption].
  apply (no_start_fence_free pre (label_text lang +:+ code +:+ fence +:+ post)).
  intros a b Hab Hb.
  destruct (Re.strip_prefix fence _) as [x|] eqn:E; [exfalso|reflexivity].
  specialize (Hmin a b Hab Hb).
  assert (Hx : exists u, x = u +:+ fence +:+ post).
  { apply (strip_prefix_keeps_tail fence
             (b +:+ fence +:+ label_text lang +:+ code) (fence +:+ post) x).
    - rewrite !str_length_app. unfold fence. cbn [String.length]. lia.
    - now rewrite !str_app_assoc. }
  destruct Hx as [u ->]. apply strip_prefix_inv in E.
  destruct (exec_code_fence_some _ u post E) as [m' Hm'].
  congruence.
Qed.

Lemma extracted_block_is_first_witness :
  exists pre lang code post,
    extract_first_code_block ("a" +:+ fence +:+ "b" +:+ fence +:+ "c") = (lang, code) /\
    "a" +:+ fence +:+ "b" +:+ fence +:+ "c" =
      pre +:+ fence +:+ label_text lang +:+ code +:+ fence +:+ post /\
    fence_free pre /\ fence_free code /\
    (forall l, lang = Some l -> is_label l = true).
Proof.
  apply (extracted_block_is_first ("a" +:+ fence +:+ "b" +:+ fence +:+ "c")).
  now exists "a", "b", "c".
Defined.

(** * The routes *)

Import Http.

Lemma returns_once_workspace_exists_witness :
  exists d b,
    outcome (run_code (Demo.linux Demo.fails) "bash" "exit 1" 10 ∅) = Ret d /\
    d !! "success" = Some (VBool b).
Proof.
  apply (returns_once_workspace_exists (Demo.linux Demo.fails) "bash" "exit 1"
           10 ∅ "k3x9").
  - reflexivity.
  - apply not_elem_of_empty.
Defined.

(** ** [run_endpoint] *)

(** [jsonify] either returns its argument or raises, and has no effect. *)
Lemma jsonify_cases d fs :
  jsonify d fs = Run (Ret d) fs [] \/
  jsonify d fs =
    Run (Raise (Exception "Object of type bytes is not JSON serializable")) fs [].
Proof.
  unfold jsonify. destruct (map_fold _ _ _); [left | right]; reflexivity.
Qed.

(** It raises on a timed-out result that carries captured [bytes]. *)
Lemma jsonify_captured_bytes o e b fs :
  b <> [] -> o = VBytes b \/ e = VBytes b ->
  jsonify (timeout_result o e) fs =
    Run (Raise (Exception "Object of type bytes is not JSON serializable")) fs [].
Proof.
  intros Hb Hoe. destruct b as [|x b]; [contradiction|].
  unfold timeout_result. destruct Hoe as [-> | ->].
  - generalize (or_value e (VStr "TIMEOUT")). intros []; reflexivity.
  - generalize (or_value o (VStr "")). intros []; reflexivity.
Qed.

(** A request with code is one call of [run_code] followed by [jsonify]. *)
Lemma run_endpoint_runs h data fs :
  truthy (default "" (data !! "code")) = true ->
  run_endpoint h data fs =
  match run_code h (default "python" (data !! "language"))
          (default "" (data !! "code")) 10 fs with
  | Run (Ret d) fs1 ev1 =>
      match jsonify d fs1 with
      | Run (Ret body) _ _ => Run (Ret (body, 200)) fs1 ev1
      | Run (Raise e) _ _ => Run (Raise e) fs1 ev1
      end
  | Run (Raise e) fs1 ev1 => Run (Raise e) fs1 ev1
  end.
Proof.
  intros Hcode. unfold run_endpoint. rewrite Hcode. cbn [negb].
  unfold mbind, M_bind, bind.
  destruct (run_code _ _ _ _ _) as [[d|e] fs1 ev1]; [|reflexivity].
  destruct (jsonify_cases d fs1) as [-> | ->]; cbn; now rewrite !app_nil_r.
Qed.

(** X18: [run_endpoint] answers 400 with [{"error": "No code provided"}]
    when the request has no [code] or an empty one, and then does nothing
    at all; with a non-empty [code], every answer it gives has status 200
    and a body with a boolean [success] key, also when the language is
    unsupported or the interpreter missing. *)
Theorem run_endpoint_status h data fs :
  (truthy (default "" (data !! "code")) = false ->
     outcome (run_endpoint h data fs) =
       Ret ({[ "error" := VStr "No code provided" ]}, 400) /\
     events (run_endpoint h data fs) = [] /\
     dirs (run_endpoint h data fs) = fs) /\
  (truthy (default "" (data !! "code")) = true ->
     forall body status,
       outcome (run_endpoint h data fs) = Ret (body, status) ->
       status = 200 /\ exists b, body !! "success" = Some (VBool b)).
Proof.
  split; intros Hcode.
  - unfold run_endpoint. rewrite Hcode. cbn [negb]. repeat split.
  - intros body status. rewrite (run_endpoint_runs h data fs Hcode).
    pose proof (returned_shape h (default "python" (data !! "language"))
                  (default "" (data !! "code")) 10 fs) as Hshape.
    destruct (run_code _ _ _ _ _) as [[d|e] fs1 ev1]; [|discriminate].
    destruct (jsonify_cases d fs1) as [-> | ->]; [|discriminate].
    intros [= <- <-]. split; [reflexivity|].
    destruct (Hshape d eq_refl)
      as [(rc & out & err & ->) | [(o & e & ->) | (msg & Hmsg & ->)]];
      eexists; reflexivity.
Qed.

(** The timeout a child is forked with is the one [run_code] was given. *)
Lemma fork_timeout h language code t fs cmd cwd t' :
  EvFork cmd cwd t' ∈ events (run_code h language code t fs) -> t' = t.
Proof. run_cases; intros Hin; elem_inv; reflexivity. Qed.

(** The effects of [run_endpoint] are those of its call of [run_code]. *)
Lemma run_endpoint_events h data fs :
  truthy (default "" (data !! "code")) = true ->
  events (run_endpoint h data fs) =
  events (run_code h (default "python" (data !! "language"))
            (default "" (data !! "code")) 10 fs).
Proof.
  intros Hcode. rewrite (run_endpoint_runs h data fs Hcode).
  destruct (run_code _ _ _ _ _) as [[d|e] fs1 ev1]; [|reflexivity].
  destruct (jsonify_cases d fs1) as [-> | ->]; reflexivity.
Qed.

(** X19: [run_endpoint] runs every snippet with a timeout of 10 seconds,
    whatever the request says, and a request without [language] is served
    as a Python request. *)
Theorem run_endpoint_timeout_and_default h data fs :
  (forall cmd cwd t,
     EvFork cmd cwd t ∈ events (run_endpoint h data fs) -> t = 10) /\
  (data !! "language" = None ->
     run_endpoint h data fs = run_endpoint h (<["language" := "python"]> data) fs).
Proof.
  split.
  - intros cmd cwd t.
    destruct (truthy (default "" (data !! "code"))) eqn:Hcode.
    + rewrite (run_endpoint_events h data fs Hcode). apply fork_timeout.
    + unfold run_endpoint. rewrite Hcode. cbn [negb].
      intros Hin. cbn in Hin. now apply elem_of_nil in Hin.
  - intros Hnone. unfold run_endpoint.
    rewrite lookup_insert_eq, lookup_insert_ne, Hnone by discriminate.
    reflexivity.
Qed.

(** X26: a timed-out result that carries captured [bytes] cannot be
    turned into JSON.  When a snippet started through [run_endpoint]
    overruns the 10 seconds and non-empty [bytes] were captured from its
    [stdout] or [stderr] (which is how the POSIX implementation of
    [subprocess] hands them over), [jsonify] raises [TypeError] and the
    route fails with an unhandled exception instead of answering with the
    timed-out result; the child has been killed and the workspace cleaned
    up as usual. *)
Theorem captured_bytes_break_run_endpoint h data fs cmd cwd lims b :
  EvExec cmd cwd lims ∈ events (run_endpoint h data fs) ->
  overruns (child h cmd cwd lims) 10 ->
  b <> [] ->
  captured_stdout (child h cmd cwd lims) = CapturedBytes b \/
  captured_stderr (child h cmd cwd lims) = CapturedBytes b ->
  outcome (run_endpoint h data fs) =
    Raise (Exception "Object of type bytes is not JSON serializable") /\
  EvKill cmd ∈ events (run_endpoint h data fs).
Proof.
  intros Hexec Hover Hb Hcap.
  destruct (truthy (default "" (data !! "code"))) eqn:Hcode.
  - rewrite (run_endpoint_events h data fs Hcode) in *.
    destruct (exec_inversion _ _ _ _ _ _ _ _ Hexec) as (_ & _ & _ & Hrun).
    cbn zeta in Hrun. unfold overruns in Hover. rewrite Hover in Hrun.
    destruct Hrun as [Hout Hkill]. split; [|exact Hkill].
    rewrite (run_endpoint_runs h data fs Hcode).
    destruct (run_code _ _ _ _ _) as [o fs1 ev1]. cbn [outcome] in Hout. subst o.
    rewrite (jsonify_captured_bytes _ _ b fs1 Hb); [reflexivity|].
    destruct Hcap as [-> | ->]; [now left | now right].
  - exfalso. revert Hexec. unfold run_endpoint. rewrite Hcode. cbn [negb].
    intros Hin. cbn in Hin. now apply elem_of_nil in Hin.
Qed.

(** ** [call_ai] *)

Lemma configured_test cfg :
  negb (truthy_opt (INFERENCE_URL cfg)) || negb (truthy_opt (INFERENCE_KEY cfg))
  = negb (configured cfg).
Proof. unfold configured. now rewrite negb_andb. Qed.

Lemma call_ai_requests cfg post dumps prompt timeout :
  snd (call_ai cfg post dumps prompt timeout) =
  if configured cfg then [ai_request cfg prompt timeout] else [].
Proof.
  unfold call_ai. rewrite configured_test.
  destruct (configured cfg); cbn [negb]; [|reflexivity].
  cbn zeta.
  destruct (post _) as [e|[[]|] text]; try destruct (member _ _); reflexivity.
Qed.

(** The answer to a response whose body is a JSON object with an
    [output] member. *)
Lemma call_ai_output cfg post dumps prompt timeout members text out :
  configured cfg = true ->
  post (ai_request cfg prompt timeout) = HttpResponse (Some (JObj members)) text ->
  member "output" members = Some out ->
  call_ai cfg post dumps prompt timeout =
    ({[ "ok" := JBool true; "raw" := JObj members; "text" := out ]},
     [ai_request cfg prompt timeout]).
Proof.
  intros Hcfg Hpost Hout. unfold call_ai. rewrite configured_test, Hcfg.
  cbn [negb]. cbn zeta. now rewrite Hpost, Hout.
Qed.

(** X20: [call_ai] makes at most one request, and none when the URL or
    the key is not configured; the request goes to [INFERENCE_URL], with
    the key as bearer token, the prompt as [input] and the timeout it was
    given. *)
Theorem call_ai_request cfg post dumps prompt timeout :
  (length (snd (call_ai cfg post dumps prompt timeout)) <= 1)%nat /\
  (configured cfg = false -> snd (call_ai cfg post dumps prompt timeout) = []) /\
  (forall req, req ∈ snd (call_ai cfg post dumps prompt timeout) ->
     INFERENCE_URL cfg = Some (req_url req) /\
     (exists key, INFERENCE_KEY cfg = Some key /\
                  req_authorization req = "Bearer " +:+ key) /\
     req_input req = prompt /\ req_timeout req = timeout).
Proof.
  rewrite call_ai_requests. unfold configured.
  destruct (INFERENCE_URL cfg) as [url|] eqn:Hurl;
    destruct (INFERENCE_KEY cfg) as [key|] eqn:Hkey; cbn [truthy_opt andb];
    try (rewrite ?andb_false_r; cbn [length]; split; [lia|];
         split; [reflexivity|]; intros req Hin; now apply elem_of_nil in Hin).
  destruct (truthy url && truthy key); cbn [length].
  - split; [lia|]. split; [discriminate|].
    intros req Hin. elem_inv. unfold ai_request. cbn. rewrite Hurl, Hkey. cbn.
    split; [reflexivity|]. split; [eauto|]. split; reflexivity.
  - split; [lia|]. split; [reflexivity|].
    intros req Hin. now apply elem_of_nil in Hin.
Qed.

(** X21: the result of [call_ai] is of one of two kinds, which the
    routes tell apart by the [error] key: an error (exactly when the
    service is not configured or the request raised), without [text]; or
    a result with [ok] true, a [raw] and a [text], without [error]. *)
Theorem call_ai_result cfg post dumps prompt timeout :
  (exists msg,
     fst (call_ai cfg post dumps prompt timeout) = {[ "error" := JStr msg ]} /\
     truthy msg = true /\
     (configured cfg = false \/
      exists e, post (ai_request cfg prompt timeout) = HttpRaises e)) \/
  (fst (call_ai cfg post dumps prompt timeout) !! "error" = None /\
   fst (call_ai cfg post dumps prompt timeout) !! "ok" = Some (JBool true) /\
   is_Some (fst (call_ai cfg post dumps prompt timeout) !! "raw") /\
   is_Some (fst (call_ai cfg post dumps prompt timeout) !! "text") /\
   configured cfg = true /\
   exists body text,
     post (ai_request cfg prompt timeout) = HttpResponse body text).
Proof.
  unfold call_ai. rewrite configured_test.
  destruct (configured cfg); cbn [negb]; cbn zeta.
  - destruct (post _) as [e|[[]|] text] eqn:Hpost; try destruct (member _ _);
      cbn [fst];
      first [ left; eexists; split; [reflexivity|]; split; [reflexivity|];
              right; eauto
            | right; repeat split; eauto ].
  - left. eexists. split; [reflexivity|]. split; [reflexivity|]. now left.
Qed.

(** ** [chat_proxy] and [autofix_endpoint] *)

(** The two cases of [extract_first_code_block], for the routes. *)
Lemma no_block text :
  ~ closed_block text -> extract_first_code_block text = (None, text).
Proof.
  intros Hno. unfold extract_first_code_block.
  destruct (Re.search CODE_FENCE_RE text) as [m|] eqn:Hs; [|reflexivity].
  exfalso. apply Hno. now apply (found_closed_block text m).
Qed.

Lemma first_block text :
  closed_block text ->
  exists pre lang code post,
    extract_first_code_block text = (lang, code) /\
    text = pre +:+ fence +:+ label_text lang +:+ code +:+ fence +:+ post /\
    fence_free pre /\ fence_free code /\
    (forall l, lang = Some l -> is_label l = true) /\
    (lang = None -> unlabelled code).
Proof.
  intros Hblock.
  destruct (closed_block_found text Hblock) as [m Hs].
  destruct (search_inv _ _ _ Hs) as (pre & rest & -> & Hm & Hmin).
  pose proof (fun code => exec_code_fence_unlabelled _ _ code Hm) as Hun.
  destruct (exec_code_fence_inv _ _ Hm)
    as (lang & code & post & -> & Hlang & Hcode & Hfree & Hlabel).
  exists pre, lang, code, post.
  unfold extract_first_code_block. rewrite Hs, Hlang, Hcode.
  split; [reflexivity|]. split; [reflexivity|].
  split; [|split; [assumption|split; [assumption|]];
           intros ->; now apply (Hun code)].
  apply (no_start_fence_free pre (label_text lang +:+ code +:+ fence +:+ post)).
  intros a b Hab Hb.
  destruct (Re.strip_prefix fence _) as [x|] eqn:E; [exfalso|reflexivity].
  specialize (Hmin a b Hab Hb).
  assert (Hx : exists u, x = u +:+ fence +:+ post).
  { apply (strip_prefix_keeps_tail fence
             (b +:+ fence +:+ label_text lang +:+ code) (fence +:+ post) x).
    - rewrite !str_length_app. unfold fence. cbn [String.length]. lia.
    - now rewrite !str_app_assoc. }
  destruct Hx as [u ->]. apply strip_prefix_inv in E.
  destruct (exec_code_fence_some _ u post E) as [m' Hm'].
  congruence.
Qed.

Lemma error_dict_error (e : json) :
  ({[ "error" := e ]} : gmap string json) !! "error" = Some e.
Proof. reflexivity. Qed.

Lemma ok_dict_error (raw text : json) :
  ({[ "ok" := JBool true; "raw" := raw; "text" := text ]} : gmap string json)
    !! "error" = None.
Proof. reflexivity. Qed.

Lemma ok_dict_text (raw text : json) :
  ({[ "ok" := JBool true; "raw" := raw; "text" := text ]} : gmap string json)
    !! "text" = Some text.
Proof. reflexivity. Qed.

(** X22: [chat_proxy] always answers, and its answer is fixed by the
    request and by what the service does: 400 with "No message provided"
    when the request has no [message] or an empty one, and 500 with the
    configuration error when the URL or the key is missing, both without
    a request to the service; otherwise exactly one request is made, with
    the prompt built from the message and a timeout of 30 seconds, and
    the answer is 500 with the text of the exception when the request
    raised, and else 200 with a [reply] that is the [output] member of
    the JSON object received (the empty string when that is null, false,
    zero or empty), the JSON text of any other JSON value received, or
    the raw text of a response that is not JSON. *)
Theorem chat_proxy_answers cfg post dumps data :
  (truthy (default "" (data !! "message")) = false ->
     chat_proxy cfg post dumps data =
       (Reply {[ "error" := JStr "No message provided" ]} 400, [])) /\
  (truthy (default "" (data !! "message")) = true ->
   configured cfg = false ->
     chat_proxy cfg post dumps data =
       (Reply {[ "error" :=
                   JStr "INFERENCE_URL or INFERENCE_KEY not configured on server." ]}
          500, [])) /\
  (truthy (default "" (data !! "message")) = true ->
   configured cfg = true ->
     (forall x,
        post (ai_request cfg (chat_prompt (default "" (data !! "message"))) 30)
          = HttpRaises x ->
        chat_proxy cfg post dumps data =
          (Reply {[ "error" := JStr ("Failed to call inference endpoint: " +:+ x) ]}
             500,
           [ai_request cfg (chat_prompt (default "" (data !! "message"))) 30])) /\
     (forall members text out,
        post (ai_request cfg (chat_prompt (default "" (data !! "message"))) 30)
          = HttpResponse (Some (JObj members)) text ->
        member "output" members = Some out ->
        chat_proxy cfg post dumps data =
          (Reply {[ "reply" := if truthy_json out then out else JStr "" ]} 200,
           [ai_request cfg (chat_prompt (default "" (data !! "message"))) 30])) /\
     (forall jr text,
        post (ai_request cfg (chat_prompt (default "" (data !! "message"))) 30)
          = HttpResponse (Some jr) text ->
        (forall members, jr = JObj members -> member "output" members = None) ->
        chat_proxy cfg post dumps data =
          (Reply {[ "reply" := JStr (dumps jr) ]} 200,
           [ai_request cfg (chat_prompt (default "" (data !! "message"))) 30])) /\
     (forall text,
        post (ai_request cfg (chat_prompt (default "" (data !! "message"))) 30)
          = HttpResponse None text ->
        chat_proxy cfg post dumps data =
          (Reply {[ "reply" := JStr text ]} 200,
           [ai_request cfg (chat_prompt (default "" (data !! "message"))) 30]))) /\
  (exists body status,
     fst (chat_proxy cfg post dumps data) = Reply body status /\
     (status = 400 \/ status = 500 \/ status = 200)) /\
  (length (snd (chat_proxy cfg post dumps data)) <= 1)%nat.
Proof.
  unfold chat_proxy, call_ai. rewrite configured_test.
  destruct (truthy (default "" (data !! "message"))) eqn:Hmsg; cbn [negb].
  - split; [discriminate|].
    destruct (configured cfg) eqn:Hcfg; cbn [negb]; cbn zeta.
    + fold (ai_request cfg (chat_prompt (default "" (data !! "message"))) 30).
      split; [discriminate|].
      destruct (post _) as [x|[jr|] text] eqn:Hpost.
      * rewrite error_dict_error. split; [|split; [eauto 6 | cbn; lia]].
        intros _ _. split; [now intros ? [= <-]|].
        split; [discriminate|]. split; discriminate.
      * assert (Hdumps : (if truthy_json (JStr (dumps jr)) then JStr (dumps jr)
                          else JStr "") = JStr (dumps jr))
          by (cbn [truthy_json]; now destruct (dumps jr)).
        destruct jr as [| | | |items|members];
          try (rewrite ok_dict_error, ok_dict_text, Hdumps;
               split; [|split; [eauto 6 | cbn; lia]];
               intros _ _; split; [discriminate|];
               split; [discriminate|]; split; [|discriminate];
               now intros ? ? [= <- <-] _).
        destruct (member "output" members) as [out|] eqn:Hout.
        -- rewrite ok_dict_error, ok_dict_text.
           split; [|split; [eauto 6 | cbn; lia]].
           intros _ _. split; [discriminate|].
           split; [intros ? ? ? [= <- <-]; rewrite Hout; now intros [= <-]|].
           split; [|discriminate].
           intros ? ? [= <- <-] Hno. now rewrite (Hno members eq_refl) in Hout.
        -- rewrite ok_dict_error, ok_dict_text, Hdumps.
           split; [|split; [eauto 6 | cbn; lia]].
           intros _ _. split; [discriminate|].
           split; [intros ? ? ? [= <- <-]; now rewrite Hout|].
           split; [|discriminate].
           now intros ? ? [= <- <-] _.
      * rewrite ok_dict_error, ok_dict_text.
        assert ((if truthy_json (JStr text) then JStr text else JStr "") = JStr text)
          as -> by (cbn [truthy_json]; now destruct text).
        split; [|split; [eauto 6 | cbn; lia]].
        intros _ _. split; [discriminate|].
        split; [discriminate|]. split; [discriminate|].
        now intros ? [= <-].
    + rewrite error_dict_error.
      split; [reflexivity|]. split; [discriminate|].
      split; [eauto 6 | cbn; lia].
  - split; [reflexivity|]. split; [discriminate|]. split; [discriminate|].
    split; [eauto 6 | cbn; lia].
Qed.

Lemma chat_proxy_answers_witness :
  chat_proxy Sample.cfg (Sample.answers (JStr "Use a list.")) Sample.dumps
    Sample.question =
    (Reply {[ "reply" := if truthy_json (JStr "Use a list.")
                         then JStr "Use a list." else JStr "" ]} 200,
     [ai_request Sample.cfg
        (chat_prompt (default "" (Sample.question !! "message"))) 30]).
Proof.
  apply (proj1 (proj2 (proj1 (proj2 (proj2
           (chat_proxy_answers Sample.cfg (Sample.answers (JStr "Use a list."))
              Sample.dumps Sample.question)))
           ltac:(vm_compute; reflexivity) ltac:(vm_compute; reflexivity)))
         [("output", JStr "Use a list.")] "" (JStr "Use a list.")).
  - reflexivity.
  - reflexivity.
Defined.

(** X23: [autofix_endpoint], when the model answers with a text that
    has a closed block: the answer is 200, [suggested] is the whole text,
    and [code] and [lang] are what [extract_first_code_block] finds in
    it, namely the first block of the text and the language of its label
    line: the text is [pre ``` label code ``` rest] where no fence starts
    inside [pre] or [code], the label line is [lang] and a line feed with
    [lang] a non-empty run of word characters, [+] and [-], and [lang] is
    [null] only when [code] does not start with such a line.  The service
    was called once, with a timeout of 60 seconds. *)
Theorem autofix_returns_first_block cfg post dumps data members text s :
  let code := default "" (data !! "code") in
  let prompt := autofix_prompt (default "python" (data !! "language")) code
                  (default "" (data !! "logs")) in
  truthy code = true ->
  configured cfg = true ->
  post (ai_request cfg prompt 60) = HttpResponse (Some (JObj members)) text ->
  member "output" members = Some (JStr s) ->
  closed_block s ->
  exists pre lang block rest,
    extract_first_code_block s = (lang, block) /\
    s = pre +:+ fence +:+ label_text lang +:+ block +:+ fence +:+ rest /\
    fence_free pre /\ fence_free block /\
    (forall l, lang = Some l -> is_label l = true) /\
    (lang = None -> unlabelled block) /\
    autofix_endpoint cfg post dumps data =
      (Reply {[ "suggested" := JStr s;
                "code" := JStr block;
                "lang" := json_of_option lang ]} 200,
       [ai_request cfg prompt 60]).
Proof.
  intros code prompt Hcode Hcfg Hpost Hout Hblock.
  destruct (first_block s Hblock)
    as (pre & lang & block & rest & Hex & Hs & Hpre & Hfree & Hlabel & Hun).
  exists pre, lang, block, rest.
  split; [exact Hex|].
  split; [exact Hs|]. split; [exact Hpre|]. split; [exact Hfree|].
  split; [exact Hlabel|]. split; [exact Hun|].
  unfold autofix_endpoint. fold code. rewrite Hcode. cbn [negb]. fold prompt.
  rewrite (call_ai_output cfg post dumps prompt 60 members text (JStr s) Hcfg Hpost Hout).
  rewrite ok_dict_error, ok_dict_text. cbn [default]. unfold id. cbv beta iota. rewrite Hex.
  now destruct block.
Qed.

(** X24: [autofix_endpoint], when the text of the model has no closed
    block: the whole text is returned as [code], with [lang] [null]. *)
Theorem autofix_without_block cfg post dumps data members text s :
  let code := default "" (data !! "code") in
  let prompt := autofix_prompt (default "python" (data !! "language")) code
                  (default "" (data !! "logs")) in
  truthy code = true ->
  configured cfg = true ->
  post (ai_request cfg prompt 60) = HttpResponse (Some (JObj members)) text ->
  member "output" members = Some (JStr s) ->
  ~ closed_block s ->
  autofix_endpoint cfg post dumps data =
    (Reply {[ "suggested" := JStr s; "code" := JStr s; "lang" := JNull ]} 200,
     [ai_request cfg prompt 60]).
Proof.
  intros code prompt Hcode Hcfg Hpost Hout Hblock.
  unfold autofix_endpoint. fold code. rewrite Hcode. cbn [negb]. fold prompt.
  rewrite (call_ai_output cfg post dumps prompt 60 members text (JStr s) Hcfg Hpost Hout).
  rewrite ok_dict_error, ok_dict_text. cbn [default]. unfold id. cbv beta iota.
  rewrite (no_block s Hblock). cbn [json_of_option].
  now destruct s.
Qed.

(** X25: [autofix_endpoint] fails with an unhandled exception when the
    [output] of the model is not a string; [chat_proxy] passes the same
    value on as [reply] when it is not null, false, zero or empty. *)
Theorem non_string_output cfg post dumps members text out :
  (forall s, out <> JStr s) ->
  configured cfg = true ->
  member "output" members = Some out ->
  (forall data,
     truthy (default "" (data !! "code")) = true ->
     post (ai_request cfg
             (autofix_prompt (default "python" (data !! "language"))
                (default "" (data !! "code")) (default "" (data !! "logs"))) 60)
       = HttpResponse (Some (JObj members)) text ->
     exists e, fst (autofix_endpoint cfg post dumps data) = Unhandled e) /\
  (forall data,
     truthy (default "" (data !! "message")) = true ->
     post (ai_request cfg (chat_prompt (default "" (data !! "message"))) 30)
       = HttpResponse (Some (JObj members)) text ->
     truthy_json out = true ->
     fst (chat_proxy cfg post dumps data) = Reply {[ "reply" := out ]} 200).
Proof.
  intros Hns Hcfg Hout. split.
  - intros data Hcode Hpost. unfold autofix_endpoint. rewrite Hcode. cbn [negb].
    rewrite (call_ai_output cfg post dumps _ 60 members text out Hcfg Hpost Hout).
    rewrite ok_dict_error, ok_dict_text. cbn [default]. unfold id. cbv beta iota.
    destruct out; try (eexists; reflexivity). now destruct (Hns s).
  - intros data Hmsg Hpost Ht. unfold chat_proxy. rewrite Hmsg. cbn [negb].
    rewrite (call_ai_output cfg post dumps _ 30 members text out Hcfg Hpost Hout).
    rewrite ok_dict_error, ok_dict_text, Ht. reflexivity.
Qed.

Lemma autofix_returns_first_block_witness :
  exists pre lang block rest,
    extract_first_code_block Sample.fixed = (lang, block) /\
    Sample.fixed =
      pre +:+ fence +:+ label_text lang +:+ block +:+ fence +:+ rest /\
    fence_free pre /\ fence_free block /\
    (forall l, lang = Some l -> is_label l = true) /\
    (lang = None -> unlabelled block) /\
    autofix_endpoint Sample.cfg (Sample.answers (JStr Sample.fixed))
      Sample.dumps Sample.broken =
      (Reply {[ "suggested" := JStr Sample.fixed;
                "code" := JStr block;
                "lang" := json_of_option lang ]} 200,
       [ai_request Sample.cfg
          (autofix_prompt (default "python" (Sample.broken !! "language"))
             (default "" (Sample.broken !! "code"))
             (default "" (Sample.broken !! "logs"))) 60]).
Proof.
  apply (autofix_returns_first_block Sample.cfg
           (Sample.answers (JStr Sample.fixed)) Sample.dumps Sample.broken
           [("output", JStr Sample.fixed)] "" Sample.fixed).
  - vm_compute. reflexivity.
  - vm_compute. reflexivity.
  - reflexivity.
  - reflexivity.
  - now exists "", ("py" +:+ LF +:+ "print(2)"), "".
Defined.

Lemma autofix_without_block_witness :
  autofix_endpoint Sample.cfg (Sample.answers (JStr "Add a parenthesis."))
    Sample.dumps Sample.broken =
    (Reply {[ "suggested" := JStr "Add a parenthesis.";
              "code" := JStr "Add a parenthesis.";
              "lang" := JNull ]} 200,
     [ai_request Sample.cfg
        (autofix_prompt (default "python" (Sample.broken !! "language"))
           (default "" (Sample.broken !! "code"))
           (default "" (Sample.broken !! "logs"))) 60]).
Proof.
  apply (autofix_without_block Sample.cfg (Sample.answers (JStr "Add a parenthesis."))
           Sample.dumps Sample.broken
           [("output", JStr "Add a parenthesis.")] "" "Add a parenthesis.").
  - vm_compute. reflexivity.
  - vm_compute. reflexivity.
  - reflexivity.
  - reflexivity.
  - intros Hb. apply closed_block_found in Hb. vm_compute in Hb. now destruct Hb.
Defined.

Lemma non_string_output_witness :
  (forall data,
     truthy (default "" (data !! "code")) = true ->
     Sample.answers (JNum 42)
       (ai_request Sample.cfg
          (autofix_prompt (default "python" (data !! "language"))
             (default "" (data !! "code")) (default "" (data !! "logs"))) 60)
       = HttpResponse (Some (JObj [("output", JNum 42)])) "" ->
     exists e,
       fst (autofix_endpoint Sample.cfg (Sample.answers (JNum 42)) Sample.dumps data)
         = Unhandled e) /\
  (forall data,
     truthy (default "" (data !! "message")) = true ->
     Sample.answers (JNum 42)
       (ai_request Sample.cfg (chat_prompt (default "" (data !! "message"))) 30)
       = HttpResponse (Some (JObj [("output", JNum 42)])) "" ->
     truthy_json (JNum 42) = true ->
     fst (chat_proxy Sample.cfg (Sample.answers (JNum 42)) Sample.dumps data)
       = Reply {[ "reply" := JNum 42 ]} 200).
Proof.
  apply (non_string_output Sample.cfg (Sample.answers (JNum 42)) Sample.dumps
           [("output", JNum 42)] "" (JNum 42)).
  - discriminate.
  - vm_compute. reflexivity.
  - reflexivity.
Defined.

Lemma run_endpoint_status_witness :
  outcome (run_endpoint (Demo.linux Demo.prints_two) {[ "language" := "bash" ]} ∅) =
    Ret ({[ "error" := VStr "No code provided" ]}, 400) /\
  events (run_endpoint (Demo.linux Demo.prints_two) {[ "language" := "bash" ]} ∅) = [] /\
  dirs (run_endpoint (Demo.linux Demo.prints_two) {[ "language" := "bash" ]} ∅) = ∅.
Proof.
  apply (proj1 (run_endpoint_status (Demo.linux Demo.prints_two)
                  {[ "language" := "bash" ]} ∅)).
  vm_compute. reflexivity.
Defined.

Lemma run_endpoint_timeout_and_default_witness :
  run_endpoint (Demo.linux Demo.prints_two) Sample.broken ∅ =
  run_endpoint (Demo.linux Demo.prints_two) (<["language" := "python"]> Sample.broken) ∅.
Proof.
  apply (proj2 (run_endpoint_timeout_and_default (Demo.linux Demo.prints_two)
                  Sample.broken ∅)).
  vm_compute. reflexivity.
Defined.

Lemma captured_bytes_break_run_endpoint_witness :
  outcome (run_endpoint (Demo.linux (Demo.floods 5)) Sample.sleeper ∅) =
    Raise (Exception "Object of type bytes is not JSON serializable") /\
  EvKill ["/usr/bin/python3"; "-u"; "main.py"]
    ∈ events (run_endpoint (Demo.linux (Demo.floods 5)) Sample.sleeper ∅).
Proof.
  apply (captured_bytes_break_run_endpoint (Demo.linux (Demo.floods 5))
           Sample.sleeper ∅ ["/usr/bin/python3"; "-u"; "main.py"] Demo.workspace
           (set_limit RLIMIT_FSIZE (Lim 10485760, Lim 10485760)
              (set_limit RLIMIT_AS (Lim 268435456, Lim 268435456)
                 (set_limit RLIMIT_CPU (Lim 6, Lim 8) Demo.unlimited)))
           (Demo.xs 5)).
  - vm_compute. do 3 apply list_elem_of_further. apply list_elem_of_here.
  - reflexivity.
  - discriminate.
  - left. reflexivity.
Defined.

Lemma call_ai_request_witness :
  snd (call_ai {| INFERENCE_URL := Some "https://inference.example/v1";
                  INFERENCE_KEY := None |}
         (Sample.answers JNull) Sample.dumps "hello" 30) = [].
Proof.
  apply (proj1 (proj2 (call_ai_request
                         {| INFERENCE_URL := Some "https://inference.example/v1";
                            INFERENCE_KEY := None |}
                         (Sample.answers JNull) Sample.dumps "hello" 30))).
  reflexivity.
Defined.
